(** * DFU Binary Extractor: the container parser of [dfu-bin-extractor.py]

    A shallow embedding of class [DFUParser] (suffix and prefix decoding,
    the DfuSe target/element walk, the [extract] dispatcher) and the
    properties of the parser stated in the specification.

    Buffers are [list byte]; Python integers (offsets, decoded fields) are
    [Z]; a Python exception is the [Err] branch of [result]. *)

From Stdlib Require Import List ZArith NArith Lia Bool.
From Stdlib Require Import Init.Byte Strings.Byte Strings.String.
From Stdlib Require Import Strings.Ascii Numbers.DecimalString.
From Stdlib Require Import Numbers.DecimalNat Lists.Finite.
Import ListNotations.
Local Open Scope Z_scope.

(** ** Python values *)

Definition bytes : Type := list byte.

(** A bytes literal: [B "UFD"] stands for the three bytes U, F, D. *)
Definition B (s : string) : bytes := list_byte_of_string s.

(** The exceptions the parser can raise.  The three [ValueError]s are told
    apart by their message; [StructError] is [struct.error] (raised by
    [struct.unpack] on a slice of the wrong length) and [IndexError] is what
    indexing a [bytes] object past its end raises. *)
Inductive region := DFU_suffix | DFU_prefix.

Inductive error :=
| TooSmall (r : region)
    (* ValueError("File too small to contain DFU suffix" / "... DFU prefix") *)
| InvalidSignature
    (* ValueError("Invalid DFU signature") *)
| InvalidTargetSignature (offset : Z)
    (* ValueError(f"Invalid target signature at offset {offset}") *)
| StructError
| IndexError.

Inductive result (A : Type) :=
| Ok (a : A)
| Err (e : error).
Arguments Ok {A} a.
Arguments Err {A} e.

Definition bind {A B} (m : result A) (k : A -> result B) : result B :=
  match m with
  | Ok a => k a
  | Err e => Err e
  end.

Notation "x <- m ;; k" := (bind m (fun x => k))
  (at level 61, m at next level, right associativity).
Notation "' p <- m ;; k" := (bind m (fun x => let p := x in k))
  (at level 61, p pattern, m at next level, right associativity).

(** [len(data)]. *)
Definition len (data : bytes) : Z := Z.of_nat (List.length data).

(** A slice bound as Python normalises it: a negative bound counts from the
    end, and every bound is clamped to [0 .. len]. *)
Definition norm_index (n i : Z) : Z :=
  if i <? 0 then Z.max 0 (i + n) else Z.min i n.

(** [data[lo:hi]]; never raises. *)
Definition slice (data : bytes) (lo hi : Z) : bytes :=
  let l := norm_index (len data) lo in
  let h := norm_index (len data) hi in
  firstn (Z.to_nat (h - l)) (skipn (Z.to_nat l) data).

(** [data[lo:]] and [data[:hi]]. *)
Definition slice_from (data : bytes) (lo : Z) : bytes :=
  slice data lo (len data).
Definition slice_to (data : bytes) (hi : Z) : bytes :=
  slice data 0 hi.

(** A byte as the integer Python sees. *)
Definition byte_val (x : byte) : Z := Z.of_N (Byte.to_N x).

(** [data[i]] for [i >= 0]: [IndexError] past the end. *)
Definition index (data : bytes) (i : Z) : result Z :=
  match nth_error data (Z.to_nat i) with
  | Some x => Ok (byte_val x)
  | None => Err IndexError
  end.

(** [a == b] on [bytes]. *)
Definition bytes_eqb (x y : bytes) : bool :=
  if list_eq_dec Byte.byte_eq_dec x y then true else false.

(** [int.from_bytes(s, "little")]: the value of a little-endian byte string. *)
Definition int_from_le (s : bytes) : Z :=
  fold_right (fun x acc => byte_val x + 256 * acc) 0 s.

(** [struct.unpack("<H", s)[0]] and [struct.unpack("<I", s)[0]]:
    unsigned little-endian, [struct.error] unless [s] has exactly 2 (4)
    bytes. *)
Definition unpack_H (s : bytes) : result Z :=
  if (List.length s =? 2)%nat then Ok (int_from_le s) else Err StructError.

Definition unpack_I (s : bytes) : result Z :=
  if (List.length s =? 4)%nat then Ok (int_from_le s) else Err StructError.

(** [s.rstrip(b"\x00")]: trailing NUL bytes removed. *)
Fixpoint lstrip_nul (s : bytes) : bytes :=
  match s with
  | x00 :: s' => lstrip_nul s'
  | _ => s
  end.

Definition rstrip_nul (s : bytes) : bytes := rev (lstrip_nul (rev s)).

(** ** Module constants *)

Definition DFU_SUFFIX_LENGTH : Z := 16.
Definition DFU_PREFIX_LENGTH : Z := 11.

(** ** class DFUParser *)

(** The dicts built by [parse_suffix] and [parse_prefix]. *)
Record Suffix := {
  bcdDevice : Z;
  idProduct : Z;
  idVendor : Z;
  bcdDFU : Z;
  ucDfuSignature : bytes;
  bLength : Z;
  dwCRC : Z
}.

Record Prefix := {
  szSignature : bytes;
  bVersion : Z;
  dwImageSize : Z;
  bTargets : Z
}.

(** The object: [__init__] stores the buffer and an empty [targets] list
    (which no method reads or writes). *)
Record DFUParser := {
  dfu_data : bytes;
  targets : list (Z * bytes)
}.

Definition init (dfu_data : bytes) : DFUParser :=
  {| dfu_data := dfu_data; targets := [] |}.

Definition parse_suffix (self : DFUParser) : result Suffix :=
  if len (dfu_data self) <? DFU_SUFFIX_LENGTH then Err (TooSmall DFU_suffix)
  else
    let suffix_data := slice_from (dfu_data self) (- DFU_SUFFIX_LENGTH) in
    v_bcdDevice <- unpack_H (slice suffix_data 0 2) ;;
    v_idProduct <- unpack_H (slice suffix_data 2 4) ;;
    v_idVendor <- unpack_H (slice suffix_data 4 6) ;;
    v_bcdDFU <- unpack_H (slice suffix_data 6 8) ;;
    let v_ucDfuSignature := slice suffix_data 8 11 in
    v_bLength <- index suffix_data 11 ;;
    v_dwCRC <- unpack_I (slice suffix_data 12 16) ;;
    let suffix :=
      {| bcdDevice := v_bcdDevice; idProduct := v_idProduct;
         idVendor := v_idVendor; bcdDFU := v_bcdDFU;
         ucDfuSignature := v_ucDfuSignature; bLength := v_bLength;
         dwCRC := v_dwCRC |} in
    if negb (bytes_eqb (ucDfuSignature suffix) (B "UFD"))
    then Err InvalidSignature
    else Ok suffix.

(** [None] when the buffer does not open with the DfuSe magic. *)
Definition parse_prefix (self : DFUParser) : result (option Prefix) :=
  if len (dfu_data self) <? DFU_PREFIX_LENGTH + DFU_SUFFIX_LENGTH
  then Err (TooSmall DFU_prefix)
  else
    let prefix_data := slice_to (dfu_data self) DFU_PREFIX_LENGTH in
    let v_szSignature := slice prefix_data 0 5 in
    v_bVersion <- index prefix_data 5 ;;
    v_dwImageSize <- unpack_I (slice prefix_data 6 10) ;;
    v_bTargets <- index prefix_data 10 ;;
    let prefix :=
      {| szSignature := v_szSignature; bVersion := v_bVersion;
         dwImageSize := v_dwImageSize; bTargets := v_bTargets |} in
    if negb (bytes_eqb (szSignature prefix) (B "DfuSe"))
    then Ok None
    else Ok (Some prefix).

Definition extract_raw_binary (self : DFUParser) : bytes :=
  slice_to (dfu_data self) (- DFU_SUFFIX_LENGTH).

(** The inner loop of [extract_dfuse_targets], [for j in range(nb_elements)],
    with the loop-carried variables [offset] and [targets] threaded through
    ([element_data] is filled but never read). *)
Fixpoint element_loop (self : DFUParser) (n : nat) (offset : Z)
    (acc : list (Z * bytes)) : result (Z * list (Z * bytes)) :=
  match n with
  | O => Ok (offset, acc)
  | S n' =>
      element_addr <- unpack_I (slice (dfu_data self) offset (offset + 4)) ;;
      element_size <- unpack_I (slice (dfu_data self) (offset + 4) (offset + 8)) ;;
      let offset := offset + 8 in
      let data := slice (dfu_data self) offset (offset + element_size) in
      let offset := offset + element_size in
      element_loop self n' offset (acc ++ [(element_addr, data)])
  end.

(** The target header read at the top of the outer loop body; its value is
    [nb_elements], the only field the walk uses. *)
Definition target_header (self : DFUParser) (offset : Z) : result Z :=
  let target_prefix := slice (dfu_data self) offset (offset + 274) in
  let signature := slice target_prefix 0 6 in
  if negb (bytes_eqb signature (B "Target"))
  then Err (InvalidTargetSignature offset)
  else
    alternate_setting <- index target_prefix 6 ;;
    let target_name := rstrip_nul (slice target_prefix 11 266) in
    target_size <- unpack_I (slice target_prefix 266 270) ;;
    nb_elements <- unpack_I (slice target_prefix 270 274) ;;
    Ok nb_elements.

(** The outer loop, [for i in range(prefix["bTargets"])]. *)
Fixpoint target_loop (self : DFUParser) (n : nat) (offset : Z)
    (acc : list (Z * bytes)) : result (Z * list (Z * bytes)) :=
  match n with
  | O => Ok (offset, acc)
  | S n' =>
      nb_elements <- target_header self offset ;;
      let offset := offset + 274 in
      '(offset, acc) <- element_loop self (Z.to_nat nb_elements) offset acc ;;
      target_loop self n' offset acc
  end.

Definition extract_dfuse_targets (self : DFUParser)
    : result (list (Z * bytes)) :=
  let offset := DFU_PREFIX_LENGTH in
  prefix <- parse_prefix self ;;
  match prefix with
  | None => Ok []
  | Some prefix =>
      '(_, acc) <- target_loop self (Z.to_nat (bTargets prefix)) offset [] ;;
      Ok acc
  end.

Definition extract (self : DFUParser) : result (list (Z * bytes)) :=
  if bytes_eqb (slice_to (dfu_data self) 5) (B "DfuSe")
  then extract_dfuse_targets self
  else Ok [(0, extract_raw_binary self)].

(** ** Reading a buffer by position

    Positions and fields as the format tables give them, used to state what
    the parser returns. *)

(** The [k]-th byte of the trailing 16-byte suffix of a buffer. *)
Definition suffix_byte (data : bytes) (k : nat) : byte :=
  nth (List.length data - 16 + k) data x00.

(** The byte at position [i], the little-endian u32 that starts there, and
    the [n] bytes that start there. *)
Definition byte_at (data : bytes) (i : Z) : Z :=
  byte_val (nth (Z.to_nat i) data x00).

Definition u32_at (data : bytes) (i : Z) : Z :=
  byte_at data i + 256 * byte_at data (i + 1) + 65536 * byte_at data (i + 2)
  + 16777216 * byte_at data (i + 3).

Definition bytes_at (data : bytes) (i n : Z) : bytes :=
  firstn (Z.to_nat n) (skipn (Z.to_nat i) data).

(** The layout of a well-formed run of [n] elements that starts at [off]:
    each element is an 8-byte header (address, size) and [size] payload
    bytes, all inside the buffer, and the next one starts right after.  The
    list is the (address, payload) pairs in file order and the last index
    the offset after the run. *)
Inductive elements_at (data : bytes)
  : nat -> Z -> list (Z * bytes) -> Z -> Prop :=
| elements_at_O off :
    elements_at data O off [] off
| elements_at_S n off rest off' :
    0 <= off ->
    off + 8 + u32_at data (off + 4) <= len data ->
    elements_at data n (off + 8 + u32_at data (off + 4)) rest off' ->
    elements_at data (S n) off
      ((u32_at data off, bytes_at data (off + 8) (u32_at data (off + 4)))
         :: rest)
      off'.

(** The layout of [n] well-formed targets that start at [off]: a 274-byte
    header signed "Target" whose last u32 is the element count, followed by
    that many elements. *)
Inductive targets_at (data : bytes)
  : nat -> Z -> list (Z * bytes) -> Z -> Prop :=
| targets_at_O off :
    targets_at data O off [] off
| targets_at_S n off elems off1 rest off' :
    0 <= off ->
    off + 274 <= len data ->
    bytes_at data off 6 = B "Target" ->
    elements_at data (Z.to_nat (u32_at data (off + 270))) (off + 274)
      elems off1 ->
    targets_at data n off1 rest off' ->
    targets_at data (S n) off (elems ++ rest) off'.

(** The offsets of the target headers the walk reads, in order: the header
    at [offset], then, as long as a header and its elements are walked
    without error, the header where the walk stands next. *)
Fixpoint header_offsets (self : DFUParser) (n : nat) (offset : Z) : list Z :=
  match n with
  | O => []
  | S n' =>
      offset ::
      match target_header self offset with
      | Ok nb_elements =>
          match element_loop self (Z.to_nat nb_elements) (offset + 274) [] with
          | Ok (offset', _) => header_offsets self n' offset'
          | Err _ => []
          end
      | Err _ => []
      end
  end.

(** Position [i] lies in the fields of a target header at [h] that are
    decoded and dropped: alternate setting and the four bytes after it
    (6..10), name (11..265), size (266..269). *)
Definition in_header_metadata (hs : list Z) (i : Z) : Prop :=
  exists h, In h hs /\ h + 6 <= i < h + 270.

(** The metadata positions of a DfuSe buffer: version and image size of the
    prefix (5..9) and the dropped fields of every target header the walk
    reads. *)
Definition metadata_position (self : DFUParser) (i : Z) : Prop :=
  5 <= i < 10 \/
  in_header_metadata
    (header_offsets self (Z.to_nat (byte_at (dfu_data self) 10)) 11) i.

(** Two buffers hold the same byte, or both none, at position [i]. *)
Definition same_at (d1 d2 : bytes) (i : Z) : Prop :=
  nth_error d1 (Z.to_nat i) = nth_error d2 (Z.to_nat i).

(** Two buffers of the same length that hold the same byte at every
    position outside [skip]. *)
Definition same_outside (skip : Z -> Prop) (d1 d2 : bytes) : Prop :=
  List.length d1 = List.length d2 /\
  forall i, 0 <= i -> ~ skip i -> same_at d1 d2 i.

(** The number of payload bytes of an extraction result. *)
Definition total_payload (elems : list (Z * bytes)) : Z :=
  fold_right (fun e n => len (snd e) + n) 0 elems.

(** Every load address of an extraction result is an unsigned 32-bit
    number. *)
Definition addresses_u32 (elems : list (Z * bytes)) : Prop :=
  Forall (fun e => 0 <= fst e < 2 ^ 32) elems.

(** ** The functions around the parser

    What is printed on the terminal (banner, progress animation, coloured
    report) is left out: it has no part in the files written nor in the
    exit status.  [print_hex_preview] is kept as the two strings it puts
    between the lines of its frame. *)

(** [f"{b:02X}"]: the two upper-case hexadecimal digits of a byte. *)
Definition hex_digit (n : Z) : ascii :=
  nth (Z.to_nat n) (list_ascii_of_string "0123456789ABCDEF") "?"%char.

Definition format_02X (x : byte) : string :=
  String (hex_digit (byte_val x / 16))
    (String (hex_digit (byte_val x mod 16)) EmptyString).

(** [chr(b) if 32 <= b < 127 else "."]. *)
Definition printable (x : byte) : ascii :=
  if (32 <=? byte_val x) && (byte_val x <? 127) then ascii_of_byte x
  else "."%char.

(** The values [hex_str] and [ascii_str] of [print_hex_preview]. *)
Definition print_hex_preview (data : bytes) (max_bytes : Z)
    : string * string :=
  let preview := slice_to data (Z.min (len data) max_bytes) in
  let hex_str := String.concat " " (map format_02X preview) in
  let ascii_str := string_of_list_ascii (map printable preview) in
  (hex_str, ascii_str).

(** [str(i)] for an index. *)
Definition str (i : nat) : string :=
  NilEmpty.string_of_uint (Nat.to_uint i).

(** The loop of [save_binaries], [for i, (addr, data) in enumerate(targets)],
    from index [i] on.  [can_write] tells the file names that can be opened
    for writing: on any other name [open] raises and the loop is left.  The
    value is whether the loop came to its end, with the files written so
    far, in order. *)
Fixpoint save_each (can_write : string -> bool) (output_prefix : string)
    (i : nat) (targets : list (Z * bytes)) (written : list (string * bytes))
    : bool * list (string * bytes) :=
  match targets with
  | [] => (true, written)
  | (addr, data) :: rest =>
      let filename := (output_prefix ++ "_" ++ str i ++ ".bin")%string in
      if can_write filename
      then save_each can_write output_prefix (S i) rest
             (written ++ [(filename, data)])
      else (false, written)
  end.

Definition save_binaries (can_write : string -> bool)
    (targets : list (Z * bytes)) (output_prefix : string)
    : bool * list (string * bytes) :=
  match targets with
  | [(addr, data)] =>
      let filename := (output_prefix ++ ".bin")%string in
      if can_write filename then (true, [(filename, data)]) else (false, [])
  | _ => save_each can_write output_prefix 0 targets []
  end.

(** [s.rsplit(".", 1)]: the two sides of the last "." of [s], if there is
    one; and [s.rsplit(".", 1)[0]]. *)
Fixpoint rsplit_dot (s : string) : option (string * string) :=
  match s with
  | EmptyString => None
  | String c rest =>
      match rsplit_dot rest with
      | Some (before, after) => Some (String c before, after)
      | None => if Ascii.eqb c "." then Some (EmptyString, rest) else None
      end
  end.

Definition rsplit_dot_0 (s : string) : string :=
  match rsplit_dot s with
  | Some (before, _) => before
  | None => s
  end.

(** The namespace [argparse] hands to [main]. *)
Record Args := {
  input : string;
  output : option string;
  info : bool
}.

(** [main] from the namespace on (what follows [args = parser.parse_args()]),
    as its return value and the files it writes.  [read_file] is the content
    of the files that can be read ([None] where [open] or [read] raises
    IOError). *)
Definition main (read_file : string -> option bytes)
    (can_write : string -> bool) (args : Args)
    : Z * list (string * bytes) :=
  match read_file (input args) with
  | None => (1, [])
  | Some dfu_data =>
      let dfu_parser := init dfu_data in
      let extracted :=
        _ <- (if info args
              then suffix <- parse_suffix dfu_parser ;;
                   prefix <- parse_prefix dfu_parser ;;
                   Ok tt
              else Ok tt) ;;
        extract dfu_parser in
      match extracted with
      | Err _ => (1, [])
      | Ok targets =>
          let output_prefix :=
            match output args with
            | Some (String c o) => String c o
            | _ => rsplit_dot_0 (input args)
            end in
          let '(completed, written) :=
            save_binaries can_write targets output_prefix in
          (if completed then 0 else 1, written)
      end
  end.

(** How [parser.parse_args()] ends: it returns the namespace, or it leaves
    the process itself, with status 0 after [-h] or [--help] and with status
    2 after a usage error.  Both exits happen before the input is opened. *)
Inductive parse_args_outcome :=
| Namespace (args : Args)
| HelpExit
| UsageExit.

(** The run of the command, [sys.exit(main())], by the outcome of
    [parse_args]: the exit status of the process and the files written. *)
Definition run (parsed : parse_args_outcome)
    (read_file : string -> option bytes) (can_write : string -> bool)
    : Z * list (string * bytes) :=
  match parsed with
  | Namespace args => main read_file can_write args
  | HelpExit => (0, [])
  | UsageExit => (2, [])
  end.

(** ** Sample buffers *)

(** [struct.pack("<I", v)]. *)
Definition pack_I (v : Z) : bytes :=
  map (fun k => match Byte.of_N (Z.to_N (Z.shiftr v (8 * k) mod 256)) with
                | Some x => x
                | None => x00
                end) [0; 1; 2; 3].

(** A 274-byte target header: signature, alternate setting 0, the four
    bytes before the name, a 255-byte name field, size and element count. *)
Definition target_header_bytes (name : bytes) (size count : Z) : bytes :=
  B "Target" ++ [x00] ++ [x01; x00; x00; x00]
  ++ firstn 255 (name ++ repeat x00 255)
  ++ pack_I size ++ pack_I count.

Definition element_bytes (addr : Z) (payload : bytes) : bytes :=
  pack_I addr ++ pack_I (len payload) ++ payload.

Definition suffix_bytes : bytes :=
  [xff; xff; x11; xdf; x83; x04; x1a; x01] ++ B "UFD" ++ [x10]
  ++ [x12; x34; x56; x78].

(** The synthetic DfuSe file: one target, two elements, A at 0x08000000 and
    B at 0x08000004. *)
Definition synthetic_dfuse (payloadA payloadB : bytes) : bytes :=
  B "DfuSe" ++ [x01] ++ pack_I (11 + 274 + 8 + len payloadA + 8 + len payloadB)
  ++ [x01]
  ++ target_header_bytes (B "ST...") (8 + len payloadA + 8 + len payloadB) 2
  ++ element_bytes 0x08000000 payloadA
  ++ element_bytes 0x08000004 payloadB
  ++ suffix_bytes.

(** A DfuSe file with two targets of one element each, in which the
    signature of the second target header is damaged. *)
Definition bad_signature_dfuse : bytes :=
  B "DfuSe" ++ [x01] ++ pack_I 0 ++ [x02]
  ++ target_header_bytes (B "first") 12 1
  ++ element_bytes 0x08000000 [x01; x02; x03; x04]
  ++ B "Tarjet" ++ skipn 6 (target_header_bytes (B "second") 12 1)
  ++ element_bytes 0x08004000 [x05; x06; x07; x08]
  ++ suffix_bytes.

(** A DfuSe file with one target and one element that declares 100 payload
    bytes, cut after the first 4 of them and closed by the suffix. *)
Definition truncated_dfuse : bytes :=
  B "DfuSe" ++ [x01] ++ pack_I 0 ++ [x01]
  ++ target_header_bytes (B "flash") 108 1
  ++ pack_I 0x08000000 ++ pack_I 100 ++ [xde; xad; xbe; xef]
  ++ suffix_bytes.

(** A plain DFU file: a payload and the suffix; and the same with the
    signature of the suffix damaged. *)
Definition plain_dfu : bytes := B "firmware image" ++ suffix_bytes.

Definition bad_suffix_dfu : bytes :=
  B "firmware image" ++ firstn 8 suffix_bytes ++ B "UFO" ++ skipn 11 suffix_bytes.

(** The synthetic DfuSe file with sample payloads, and the same file with
    the dropped fields of its target header (header offsets 6..269, that is
    positions 17..280) overwritten. *)
Definition sample_dfuse : bytes :=
  synthetic_dfuse [x01; x02; x03; x04] (B "ABCDEFGH").

Definition relabelled_dfuse : bytes :=
  firstn (Z.to_nat 17) sample_dfuse ++ repeat xff 264
  ++ skipn (Z.to_nat (17 + len (repeat xff 264))) sample_dfuse.

(** The sample DfuSe file with other bytes in place of its suffix. *)
Definition retrailed_dfuse : bytes :=
  firstn 313 sample_dfuse ++ B "not a DFU suffix".

(** ** Proof automation *)

Arguments byte_val : simpl never.

(** A list of known length, as its elements. *)
Ltac destruct_bytes suf H :=
  repeat (destruct suf as [|? suf]; [discriminate H|]);
  destruct suf; [clear H|discriminate H].

(** Slices and indexings of a list whose spine is known are computed. *)
Ltac eval_slices :=
  repeat match goal with
    | |- context [slice ?l ?lo ?hi] =>
        let r := eval vm_compute in (slice l lo hi) in
        change (slice l lo hi) with r
    | |- context [index ?l ?i] =>
        let r := eval cbv [index nth_error Z.to_nat Pos.to_nat Pos.iter_op
                           Nat.add] in (index l i) in
        change (index l i) with r
    end.

(** * Properties *)

(** ** Slices *)

Lemma len_nonneg (data : bytes) : 0 <= len data.
Proof. unfold len; lia. Qed.

Lemma len_app (x y : bytes) : len (x ++ y) = len x + len y.
Proof. unfold len; rewrite length_app; lia. Qed.

(** Between non-negative bounds the clamping is the one [firstn] and [skipn]
    already do. *)
Lemma slice_nonneg (data : bytes) (lo hi : Z) :
  0 <= lo -> 0 <= hi ->
  slice data lo hi = firstn (Z.to_nat (hi - lo)) (skipn (Z.to_nat lo) data).
Proof.
  intros Hlo Hhi. unfold slice, norm_index.
  destruct (Z.ltb_spec lo 0) as [?|_]; [lia|].
  destruct (Z.ltb_spec hi 0) as [?|_]; [lia|].
  pose proof (len_nonneg data) as Hn. unfold len in *.
  destruct (Z.le_gt_cases lo (Z.of_nat (List.length data))) as [Hl|Hl].
  - rewrite (Z.min_l lo) by lia.
    destruct (Z.le_gt_cases hi (Z.of_nat (List.length data))) as [Hh|Hh].
    + rewrite Z.min_l by lia. reflexivity.
    + rewrite Z.min_r by lia.
      rewrite !firstn_all2; try reflexivity; rewrite length_skipn; lia.
  - rewrite (Z.min_r lo) by lia.
    rewrite (skipn_all2 data (n := Z.to_nat lo)) by lia.
    rewrite firstn_nil.
    replace (Z.to_nat (Z.min hi (Z.of_nat (List.length data)) - Z.of_nat (List.length data)))
      with 0%nat by lia.
    reflexivity.
Qed.

(** [data[:-16]] keeps all but the last 16 bytes, and nothing of a buffer
    that has no more than 16. *)
Lemma slice_to_neg (data : bytes) (k : Z) :
  0 < k ->
  slice_to data (- k) = firstn (Z.to_nat (Z.max 0 (len data - k))) data.
Proof.
  intros Hk. unfold slice_to, slice, norm_index.
  pose proof (len_nonneg data).
  destruct (Z.ltb_spec 0 0) as [?|_]; [lia|].
  destruct (Z.ltb_spec (- k) 0) as [_|?]; [|lia].
  rewrite (Z.min_l 0) by lia. cbn [Z.to_nat skipn].
  f_equal. lia.
Qed.

(** [data[-16:]] of a buffer of at least 16 bytes is its last 16 bytes. *)
Lemma slice_from_neg_app (pre suf : bytes) :
  suf <> [] ->
  slice_from (pre ++ suf) (- len suf) = suf.
Proof.
  intros Hs. unfold slice_from, slice, norm_index.
  assert (0 < len suf) by (unfold len; destruct suf; [congruence|cbn; lia]).
  pose proof (len_nonneg pre).
  destruct (Z.ltb_spec (- len suf) 0) as [_|?]; [|lia].
  destruct (Z.ltb_spec (len (pre ++ suf)) 0) as [?|_];
    [pose proof (len_nonneg (pre ++ suf)); lia|].
  rewrite len_app.
  replace (Z.max 0 (- len suf + (len pre + len suf))) with (len pre) by lia.
  rewrite Z.min_id.
  unfold len. rewrite Nat2Z.id.
  rewrite skipn_app, skipn_all, Nat.sub_diag. cbn [skipn app].
  apply firstn_all2. lia.
Qed.

(** A buffer of at least [k] bytes splits into a head and its last [k]. *)
Lemma split_last (data : bytes) (k : nat) :
  Z.of_nat k <= len data ->
  exists pre suf, data = pre ++ suf /\ List.length suf = k.
Proof.
  intros H. unfold len in H.
  exists (firstn (List.length data - k) data), (skipn (List.length data - k) data).
  split; [symmetry; apply firstn_skipn|].
  rewrite length_skipn. lia.
Qed.

(** ** Decoding fixed-size fields *)

Lemma unpack_H_2 (x0 x1 : byte) :
  unpack_H [x0; x1] = Ok (byte_val x0 + 256 * byte_val x1).
Proof. unfold unpack_H, int_from_le. cbn [List.length Nat.eqb fold_right]. f_equal. lia. Qed.

Lemma unpack_I_4 (x0 x1 x2 x3 : byte) :
  unpack_I [x0; x1; x2; x3] =
  Ok (byte_val x0 + 256 * byte_val x1 + 65536 * byte_val x2
      + 16777216 * byte_val x3).
Proof. unfold unpack_I, int_from_le. cbn [List.length Nat.eqb fold_right]. f_equal. lia. Qed.

Lemma unpack_I_length (s : bytes) :
  List.length s <> 4%nat -> unpack_I s = Err StructError.
Proof. intros H. unfold unpack_I. apply Nat.eqb_neq in H. now rewrite H. Qed.

Lemma unpack_I_ok (s : bytes) :
  List.length s = 4%nat -> unpack_I s = Ok (int_from_le s).
Proof. intros H. unfold unpack_I. now rewrite H. Qed.

Lemma bytes_eqb_eq (x y : bytes) : bytes_eqb x y = true <-> x = y.
Proof. unfold bytes_eqb. destruct (list_eq_dec _ x y); split; congruence. Qed.

Lemma bytes_eqb_neq (x y : bytes) : bytes_eqb x y = false <-> x <> y.
Proof. unfold bytes_eqb. destruct (list_eq_dec _ x y); split; congruence. Qed.

(** ** The suffix decoder *)

(** [parse_suffix] on a buffer written as a head followed by its 16 last
    bytes. *)
Lemma parse_suffix_app (self : DFUParser) (pre : bytes)
    (d0 d1 p0 p1 v0 v1 f0 f1 s0 s1 s2 l c0 c1 c2 c3 : byte) :
  dfu_data self =
    pre ++ [d0; d1; p0; p1; v0; v1; f0; f1; s0; s1; s2; l; c0; c1; c2; c3] ->
  parse_suffix self =
    if bytes_eqb [s0; s1; s2] (B "UFD") then
      Ok {| bcdDevice := byte_val d0 + 256 * byte_val d1;
            idProduct := byte_val p0 + 256 * byte_val p1;
            idVendor := byte_val v0 + 256 * byte_val v1;
            bcdDFU := byte_val f0 + 256 * byte_val f1;
            ucDfuSignature := [s0; s1; s2];
            bLength := byte_val l;
            dwCRC := byte_val c0 + 256 * byte_val c1 + 65536 * byte_val c2
                     + 16777216 * byte_val c3 |}
    else Err InvalidSignature.
Proof.
  intros E. unfold parse_suffix. rewrite E.
  set (suf := [d0; d1; p0; p1; v0; v1; f0; f1; s0; s1; s2; l; c0; c1; c2; c3]).
  destruct (Z.ltb_spec (len (pre ++ suf)) DFU_SUFFIX_LENGTH) as [Hlt|_].
  { rewrite len_app in Hlt. pose proof (len_nonneg pre).
    change (len suf) with 16 in Hlt. change DFU_SUFFIX_LENGTH with 16 in Hlt. lia. }
  change (- DFU_SUFFIX_LENGTH) with (- len suf).
  rewrite slice_from_neg_app by discriminate.
  subst suf. eval_slices.
  rewrite !unpack_H_2, unpack_I_4. cbn [bind ucDfuSignature].
  destruct (bytes_eqb [s0; s1; s2] (B "UFD")); reflexivity.
Qed.

Lemma suffix_byte_app (pre suf : bytes) (k : nat) :
  List.length suf = 16%nat ->
  suffix_byte (pre ++ suf) k = nth k suf x00.
Proof.
  intros H. unfold suffix_byte. rewrite length_app, H.
  rewrite app_nth2 by lia. f_equal. lia.
Qed.

(** A buffer of at least 16 bytes gets past the length test: what
    [parse_suffix] returns is decided by the signature alone. *)
Lemma parse_suffix_long (self : DFUParser) :
  16 <= len (dfu_data self) ->
  let sb := suffix_byte (dfu_data self) in
  parse_suffix self =
    if bytes_eqb [sb 8; sb 9; sb 10]%nat (B "UFD") then
      Ok {| bcdDevice := byte_val (sb 0) + 256 * byte_val (sb 1);
            idProduct := byte_val (sb 2) + 256 * byte_val (sb 3);
            idVendor := byte_val (sb 4) + 256 * byte_val (sb 5);
            bcdDFU := byte_val (sb 6) + 256 * byte_val (sb 7);
            ucDfuSignature := [sb 8; sb 9; sb 10];
            bLength := byte_val (sb 11);
            dwCRC := byte_val (sb 12) + 256 * byte_val (sb 13)
                     + 65536 * byte_val (sb 14)
                     + 16777216 * byte_val (sb 15) |}%nat
    else Err InvalidSignature.
Proof.
  intros H sb. destruct (split_last (dfu_data self) 16 H) as (pre & suf & E & Hs).
  destruct_bytes suf Hs.
  rewrite (parse_suffix_app _ _ _ _ _ _ _ _ _ _ _ _ _ _ _ _ _ _ E).
  subst sb. rewrite E.
  rewrite !suffix_byte_app by reflexivity.
  reflexivity.
Qed.

(** C5: [parse_suffix] fails with TooSmall on every buffer shorter than 16
    bytes, and with no TooSmall error, of the suffix or of the prefix, on a
    buffer of 16 bytes or more. *)
Theorem parse_suffix_too_small (self : DFUParser) :
  (len (dfu_data self) < 16 -> parse_suffix self = Err (TooSmall DFU_suffix)) /\
  (16 <= len (dfu_data self) ->
   forall r : region, parse_suffix self <> Err (TooSmall r)).
Proof.
  split; intros H.
  - unfold parse_suffix.
    destruct (Z.ltb_spec (len (dfu_data self)) DFU_SUFFIX_LENGTH) as [_|Hge];
      [reflexivity|].
    change DFU_SUFFIX_LENGTH with 16 in Hge. lia.
  - intros r. rewrite (parse_suffix_long self H).
    destruct (bytes_eqb _ _); discriminate.
Qed.

Lemma parse_suffix_too_small_witness :
  parse_suffix (init (B "DFU")) = Err (TooSmall DFU_suffix) /\
  (forall r : region, parse_suffix (init plain_dfu) <> Err (TooSmall r)) /\
  (forall r : region, parse_suffix (init bad_suffix_dfu) <> Err (TooSmall r)).
Proof.
  split; [|split].
  - apply (proj1 (parse_suffix_too_small (init (B "DFU")))). reflexivity.
  - apply (proj2 (parse_suffix_too_small (init plain_dfu))).
    vm_compute; discriminate.
  - apply (proj2 (parse_suffix_too_small (init bad_suffix_dfu))).
    vm_compute; discriminate.
Defined.

(** C6: on a buffer of at least 16 bytes, [parse_suffix] fails with
    InvalidSignature when bytes 8..10 of the trailing 16 differ from "UFD",
    and otherwise returns the suffix record: bcdDevice, idProduct, idVendor
    and bcdDFU little-endian u16, bLength one byte, dwCRC little-endian u32.
    The result is a function of the buffer: nothing else is read or
    written. *)
Theorem parse_suffix_signature (self : DFUParser) :
  16 <= len (dfu_data self) ->
  let sb := suffix_byte (dfu_data self) in
  ([sb 8; sb 9; sb 10]%nat <> B "UFD" -> parse_suffix self = Err InvalidSignature) /\
  ([sb 8; sb 9; sb 10]%nat = B "UFD" ->
   parse_suffix self =
     Ok {| bcdDevice := byte_val (sb 0) + 256 * byte_val (sb 1);
           idProduct := byte_val (sb 2) + 256 * byte_val (sb 3);
           idVendor := byte_val (sb 4) + 256 * byte_val (sb 5);
           bcdDFU := byte_val (sb 6) + 256 * byte_val (sb 7);
           ucDfuSignature := B "UFD";
           bLength := byte_val (sb 11);
           dwCRC := byte_val (sb 12) + 256 * byte_val (sb 13)
                    + 65536 * byte_val (sb 14)
                    + 16777216 * byte_val (sb 15) |}%nat).
Proof.
  intros H sb. pose proof (parse_suffix_long self H) as P. cbv zeta in P.
  fold sb in P. split; intros Hsig.
  - apply bytes_eqb_neq in Hsig. rewrite Hsig in P. exact P.
  - rewrite P, Hsig.
    replace (bytes_eqb (B "UFD") (B "UFD")) with true
      by (symmetry; now apply bytes_eqb_eq).
    reflexivity.
Qed.

Lemma parse_suffix_signature_witness :
  parse_suffix (init bad_suffix_dfu) = Err InvalidSignature /\
  parse_suffix (init plain_dfu) =
    Ok {| bcdDevice := 0xffff; idProduct := 0xdf11; idVendor := 0x0483;
          bcdDFU := 0x011a; ucDfuSignature := B "UFD"; bLength := 16;
          dwCRC := 0x78563412 |}.
Proof.
  split.
  - apply (proj1 (parse_suffix_signature (init bad_suffix_dfu)
                    ltac:(vm_compute; discriminate))).
    vm_compute; discriminate.
  - apply (proj2 (parse_suffix_signature (init plain_dfu)
                    ltac:(vm_compute; discriminate))).
    reflexivity.
Defined.

(** ** The prefix decoder *)

Lemma slice_to_firstn (data : bytes) (k : Z) :
  0 <= k -> slice_to data k = firstn (Z.to_nat k) data.
Proof.
  intros H. unfold slice_to. rewrite slice_nonneg by lia.
  rewrite Z.sub_0_r. reflexivity.
Qed.

Lemma parse_prefix_short (self : DFUParser) :
  len (dfu_data self) < 27 -> parse_prefix self = Err (TooSmall DFU_prefix).
Proof.
  intros H. unfold parse_prefix.
  change (DFU_PREFIX_LENGTH + DFU_SUFFIX_LENGTH) with 27.
  destruct (Z.ltb_spec (len (dfu_data self)) 27); [reflexivity|lia].
Qed.

(** From 27 bytes on the first 11 bytes are all there: [parse_prefix] does
    not fail, and what it returns is decided by the first five bytes. *)
Lemma parse_prefix_long (self : DFUParser) :
  27 <= len (dfu_data self) ->
  parse_prefix self =
    if bytes_eqb (firstn 5 (dfu_data self)) (B "DfuSe") then
      Ok (Some {| szSignature := firstn 5 (dfu_data self);
                  bVersion := byte_at (dfu_data self) 5;
                  dwImageSize := u32_at (dfu_data self) 6;
                  bTargets := byte_at (dfu_data self) 10 |})
    else Ok None.
Proof.
  intros Hge. unfold parse_prefix.
  change (DFU_PREFIX_LENGTH + DFU_SUFFIX_LENGTH) with 27.
  destruct (Z.ltb_spec (len (dfu_data self)) 27) as [Hlt|_]; [lia|].
  rewrite slice_to_firstn by (unfold DFU_PREFIX_LENGTH; lia).
  change (Z.to_nat DFU_PREFIX_LENGTH) with 11%nat.
  unfold u32_at, byte_at.
  change (Z.to_nat 5) with 5%nat. change (Z.to_nat 10) with 10%nat.
  change (Z.to_nat 6) with 6%nat. change (Z.to_nat (6 + 1)) with 7%nat.
  change (Z.to_nat (6 + 2)) with 8%nat. change (Z.to_nat (6 + 3)) with 9%nat.
  assert (Hl : (11 <= List.length (dfu_data self))%nat)
    by (unfold len in Hge; lia).
  destruct (dfu_data self) as [|x0 data]; [cbn in Hl; lia|].
  do 10 (destruct data as [|? data]; [cbn in Hl; lia|]).
  cbn [firstn nth]. eval_slices.
  rewrite unpack_I_4. cbn [bind szSignature].
  destruct (bytes_eqb _ _); reflexivity.
Qed.

(** C7: [parse_prefix] fails with TooSmall below 27 bytes; from 27 bytes on
    it returns None when the first 5 bytes are not "DfuSe", and otherwise the
    prefix record: version at byte 5, image size little-endian u32 at bytes
    6..9, target count at byte 10. *)
Theorem parse_prefix_cases (self : DFUParser) :
  let data := dfu_data self in
  (len data < 27 -> parse_prefix self = Err (TooSmall DFU_prefix)) /\
  (27 <= len data -> firstn 5 data <> B "DfuSe" -> parse_prefix self = Ok None) /\
  (27 <= len data -> firstn 5 data = B "DfuSe" ->
   parse_prefix self =
     Ok (Some {| szSignature := B "DfuSe";
                 bVersion := byte_at data 5;
                 dwImageSize := u32_at data 6;
                 bTargets := byte_at data 10 |})).
Proof.
  intros data. split; [apply parse_prefix_short|].
  split; intros HL Hsig; rewrite (parse_prefix_long self HL); fold data.
  - apply bytes_eqb_neq in Hsig. now rewrite Hsig.
  - rewrite Hsig.
    replace (bytes_eqb (B "DfuSe") (B "DfuSe")) with true
      by (symmetry; now apply bytes_eqb_eq).
    reflexivity.
Qed.

Lemma parse_prefix_cases_witness :
  parse_prefix (init (B "DfuSe, but short")) = Err (TooSmall DFU_prefix) /\
  parse_prefix (init plain_dfu) = Ok None /\
  parse_prefix (init sample_dfuse) =
    Ok (Some {| szSignature := B "DfuSe"; bVersion := 1; dwImageSize := 313;
                bTargets := 1 |}).
Proof.
  split; [|split].
  - apply (proj1 (parse_prefix_cases (init (B "DfuSe, but short")))).
    reflexivity.
  - apply (proj1 (proj2 (parse_prefix_cases (init plain_dfu)))).
    + vm_compute; discriminate.
    + vm_compute; discriminate.
  - apply (proj2 (proj2 (parse_prefix_cases (init sample_dfuse)))).
    + vm_compute; discriminate.
    + reflexivity.
Defined.

(** ** The dispatcher and the plain-DFU path *)

(** The test [self.dfu_data[:5] == b"DfuSe"] looks at the first five bytes. *)
Lemma dispatch_test (self : DFUParser) :
  bytes_eqb (slice_to (dfu_data self) 5) (B "DfuSe") = true <->
  firstn 5 (dfu_data self) = B "DfuSe".
Proof. rewrite slice_to_firstn by lia. apply bytes_eqb_eq. Qed.

Lemma extract_dfuse (self : DFUParser) :
  firstn 5 (dfu_data self) = B "DfuSe" ->
  extract self = extract_dfuse_targets self.
Proof.
  intros H. apply dispatch_test in H. unfold extract. now rewrite H.
Qed.

Lemma extract_plain (self : DFUParser) :
  firstn 5 (dfu_data self) <> B "DfuSe" ->
  extract self = Ok [(0, extract_raw_binary self)].
Proof.
  intros H. unfold extract.
  destruct (bytes_eqb _ _) eqn:E; [|reflexivity].
  apply dispatch_test in E. contradiction.
Qed.

Lemma extract_raw_binary_firstn (self : DFUParser) :
  extract_raw_binary self =
  firstn (Z.to_nat (Z.max 0 (len (dfu_data self) - 16))) (dfu_data self).
Proof.
  unfold extract_raw_binary. change (- DFU_SUFFIX_LENGTH) with (- (16)).
  apply slice_to_neg. lia.
Qed.

(** C1: a buffer of L >= 16 bytes that does not open with "DfuSe" is
    extracted as the single pair (0, buffer[0 : L-16]). *)
Theorem extract_plain_strips_suffix (self : DFUParser) :
  16 <= len (dfu_data self) ->
  firstn 5 (dfu_data self) <> B "DfuSe" ->
  extract self =
    Ok [(0, firstn (List.length (dfu_data self) - 16) (dfu_data self))].
Proof.
  intros HL Hsig. rewrite (extract_plain self Hsig), extract_raw_binary_firstn.
  do 4 f_equal. unfold len in *. lia.
Qed.

Lemma extract_plain_strips_suffix_witness :
  extract (init plain_dfu) = Ok [(0, B "firmware image")].
Proof.
  apply (extract_plain_strips_suffix (init plain_dfu)).
  - vm_compute; discriminate.
  - vm_compute; discriminate.
Defined.

(** C9: the plain-DFU path checks nothing: whatever the length and the
    trailing bytes, a buffer that does not open with "DfuSe" is extracted as
    the single pair (0, buffer[0 : max(0, L-16)]), whose payload is empty
    when L <= 16. *)
Theorem extract_plain_no_validation (self : DFUParser) :
  firstn 5 (dfu_data self) <> B "DfuSe" ->
  extract self =
    Ok [(0, firstn (Z.to_nat (Z.max 0 (len (dfu_data self) - 16)))
              (dfu_data self))] /\
  (len (dfu_data self) <= 16 -> extract self = Ok [(0, [])]).
Proof.
  intros Hsig. rewrite (extract_plain self Hsig), extract_raw_binary_firstn.
  split; [reflexivity|]. intros HL.
  replace (Z.max 0 (len (dfu_data self) - 16)) with 0 by lia.
  reflexivity.
Qed.

Lemma extract_plain_no_validation_witness :
  extract (init bad_suffix_dfu) = Ok [(0, B "firmware image")] /\
  extract (init (B "tiny")) = Ok [(0, [])].
Proof.
  split.
  - apply (proj1 (extract_plain_no_validation (init bad_suffix_dfu)
                    ltac:(vm_compute; discriminate))).
  - apply (proj2 (extract_plain_no_validation (init (B "tiny"))
                    ltac:(vm_compute; discriminate))).
    vm_compute; discriminate.
Defined.

(** ** Every method reads the buffer and nothing else *)

Section SameBuffer.
Variables s1 s2 : DFUParser.
Hypothesis same : dfu_data s1 = dfu_data s2.

Lemma parse_prefix_same : parse_prefix s1 = parse_prefix s2.
Proof. unfold parse_prefix. now rewrite same. Qed.

Lemma element_loop_same n offset acc :
  element_loop s1 n offset acc = element_loop s2 n offset acc.
Proof.
  revert offset acc. induction n as [|n IH]; intros; cbn [element_loop];
    [reflexivity|].
  rewrite same. unfold bind.
  repeat (destruct (unpack_I _); [|reflexivity]). apply IH.
Qed.

Lemma target_header_same offset :
  target_header s1 offset = target_header s2 offset.
Proof. unfold target_header. now rewrite same. Qed.

Lemma target_loop_same n offset acc :
  target_loop s1 n offset acc = target_loop s2 n offset acc.
Proof.
  revert offset acc. induction n as [|n IH]; intros; cbn [target_loop];
    [reflexivity|].
  rewrite target_header_same. unfold bind.
  destruct (target_header s2 offset); [|reflexivity].
  rewrite element_loop_same.
  destruct (element_loop s2 _ _ _) as [[? ?]|]; [apply IH|reflexivity].
Qed.

Lemma extract_same : extract s1 = extract s2.
Proof.
  unfold extract, extract_dfuse_targets, extract_raw_binary.
  rewrite parse_prefix_same, same. unfold bind.
  destruct (bytes_eqb _ _); [|reflexivity].
  destruct (parse_prefix s2) as [[p|]|]; try reflexivity.
  now rewrite target_loop_same.
Qed.
End SameBuffer.

(** C8: [extract] chooses its path by the first five bytes alone: the DfuSe
    walk when they are "DfuSe", the raw extraction otherwise; and its result
    is a function of the buffer, so that any two calls on the same buffer
    (whatever else the objects hold) return the same result. *)
Theorem extract_dispatch (self : DFUParser) :
  (firstn 5 (dfu_data self) = B "DfuSe" ->
   extract self = extract_dfuse_targets self) /\
  (firstn 5 (dfu_data self) <> B "DfuSe" ->
   extract self = Ok [(0, extract_raw_binary self)]) /\
  (forall other : DFUParser,
     dfu_data other = dfu_data self -> extract other = extract self).
Proof.
  split; [apply extract_dfuse|]. split; [apply extract_plain|].
  intros other H. now apply extract_same.
Qed.

Lemma extract_dispatch_witness :
  extract (init sample_dfuse) = extract_dfuse_targets (init sample_dfuse) /\
  extract (init plain_dfu) = Ok [(0, extract_raw_binary (init plain_dfu))] /\
  extract {| dfu_data := sample_dfuse; targets := [(0, B "old")] |}
  = extract (init sample_dfuse).
Proof.
  split; [|split].
  - apply (proj1 (extract_dispatch (init sample_dfuse))). reflexivity.
  - apply (proj1 (proj2 (extract_dispatch (init plain_dfu)))).
    vm_compute; discriminate.
  - apply (proj2 (proj2 (extract_dispatch (init sample_dfuse)))). reflexivity.
Defined.

(** ** Reads inside the buffer *)

Lemma slice_bytes_at (data : bytes) (off n : Z) :
  0 <= off -> 0 <= n -> slice data off (off + n) = bytes_at data off n.
Proof.
  intros Ho Hn. rewrite slice_nonneg by lia. unfold bytes_at.
  now replace (off + n - off) with n by lia.
Qed.

Lemma bytes_at_length (data : bytes) (off n : Z) :
  0 <= off -> 0 <= n -> off + n <= len data ->
  List.length (bytes_at data off n) = Z.to_nat n.
Proof.
  intros Ho Hn Hb. unfold bytes_at, len in *.
  rewrite length_firstn, length_skipn. lia.
Qed.

(** A slice of a slice is a slice of the buffer. *)
Lemma slice_slice (data : bytes) (off k lo hi : Z) :
  0 <= off -> 0 <= lo -> lo <= hi -> hi <= k ->
  slice (slice data off (off + k)) lo hi = slice data (off + lo) (off + hi).
Proof.
  intros Ho Hlo Hhi Hk.
  rewrite (slice_nonneg (slice data off (off + k))) by lia.
  rewrite !slice_nonneg by lia.
  rewrite skipn_firstn_comm, firstn_firstn, skipn_skipn.
  replace (off + hi - (off + lo)) with (hi - lo) by lia.
  f_equal; [lia|f_equal; lia].
Qed.

Lemma skipn_nth (data : bytes) (n : nat) :
  (n < List.length data)%nat ->
  skipn n data = nth n data x00 :: skipn (S n) data.
Proof.
  revert data. induction n as [|n IH]; intros [|x data] H; cbn in H; try lia.
  - reflexivity.
  - cbn [skipn nth]. apply IH. lia.
Qed.

(** Four bytes inside the buffer decode to the little-endian u32 there. *)
Lemma int_from_le_bytes_at (data : bytes) (off : Z) :
  0 <= off -> off + 4 <= len data ->
  int_from_le (bytes_at data off 4) = u32_at data off.
Proof.
  intros Ho Hb. unfold bytes_at, u32_at, byte_at, len in *.
  change (Z.to_nat 4) with 4%nat.
  replace (Z.to_nat (off + 1)) with (S (Z.to_nat off)) by lia.
  replace (Z.to_nat (off + 2)) with (S (S (Z.to_nat off))) by lia.
  replace (Z.to_nat (off + 3)) with (S (S (S (Z.to_nat off)))) by lia.
  do 4 (rewrite skipn_nth by lia; cbn [firstn]).
  unfold int_from_le. cbn [fold_right]. lia.
Qed.

Lemma unpack_I_at (data : bytes) (off : Z) :
  0 <= off -> off + 4 <= len data ->
  unpack_I (slice data off (off + 4)) = Ok (u32_at data off).
Proof.
  intros Ho Hb. rewrite slice_bytes_at by lia.
  rewrite unpack_I_ok by (rewrite bytes_at_length; lia).
  now rewrite int_from_le_bytes_at.
Qed.

Lemma byte_val_range (x : byte) : 0 <= byte_val x < 256.
Proof.
  unfold byte_val. pose proof (Byte.to_N_bounded x) as H.
  remember (Byte.to_N x) as n eqn:E. clear E. lia.
Qed.

Lemma int_from_le_nonneg (s : bytes) : 0 <= int_from_le s.
Proof.
  unfold int_from_le. induction s as [|x s IH]; cbn [fold_right]; [lia|].
  pose proof (byte_val_range x). lia.
Qed.

Lemma unpack_I_nonneg (s : bytes) (v : Z) : unpack_I s = Ok v -> 0 <= v.
Proof.
  unfold unpack_I. destruct (_ =? _)%nat; [|discriminate].
  intros [= <-]. apply int_from_le_nonneg.
Qed.

Lemma u32_at_nonneg (data : bytes) (off : Z) : 0 <= u32_at data off.
Proof.
  unfold u32_at, byte_at.
  repeat match goal with
         | |- context [byte_val ?x] =>
             lazymatch goal with
             | _ : 0 <= byte_val x < 256 |- _ => fail
             | _ => pose proof (byte_val_range x)
             end
         end.
  lia.
Qed.

(** ** The DfuSe walk on a well-formed buffer *)

Lemma bind_Ok {A} (m : result A) : (x <- m ;; Ok x) = m.
Proof. now destruct m. Qed.

(** The reads of [target_header], as reads of the buffer. *)
Lemma target_header_reads (self : DFUParser) (off : Z) :
  0 <= off ->
  target_header self off =
    if negb (bytes_eqb (slice (dfu_data self) off (off + 6)) (B "Target"))
    then Err (InvalidTargetSignature off)
    else
      _ <- index (slice (dfu_data self) off (off + 274)) 6 ;;
      _ <- unpack_I (slice (dfu_data self) (off + 266) (off + 270)) ;;
      unpack_I (slice (dfu_data self) (off + 270) (off + 274)).
Proof.
  intros Ho. unfold target_header.
  rewrite !(slice_slice _ off 274) by lia.
  rewrite Z.add_0_r.
  destruct (negb _); [reflexivity|].
  unfold bind at 1 3.
  destruct (index _ 6); [|reflexivity].
  unfold bind at 1 3.
  destruct (unpack_I (slice _ (off + 266) _)); [|reflexivity].
  apply bind_Ok.
Qed.

Lemma target_header_ok (self : DFUParser) (off : Z) :
  0 <= off -> off + 274 <= len (dfu_data self) ->
  bytes_at (dfu_data self) off 6 = B "Target" ->
  target_header self off = Ok (u32_at (dfu_data self) (off + 270)).
Proof.
  intros Ho Hb Hsig. rewrite target_header_reads by lia.
  rewrite (slice_bytes_at _ off 6), Hsig by lia.
  replace (bytes_eqb (B "Target") (B "Target")) with true
    by (symmetry; now apply bytes_eqb_eq).
  cbn [negb].
  assert (Hi : exists v, index (slice (dfu_data self) off (off + 274)) 6 = Ok v).
  { unfold index. destruct (nth_error _ _) eqn:E; [eauto|].
    apply nth_error_None in E. rewrite slice_bytes_at in E by lia.
    rewrite bytes_at_length in E by lia. lia. }
  destruct Hi as [v ->]. cbn [bind].
  replace (off + 270) with (off + 266 + 4) at 1 by lia.
  rewrite (unpack_I_at _ (off + 266)) by lia. cbn [bind].
  replace (off + 274) with (off + 270 + 4) by lia.
  apply unpack_I_at; lia.
Qed.

(** On a well-formed run of elements the inner loop appends the pairs of the
    run, in order, and stops at the offset after it. *)
Lemma element_loop_layout (self : DFUParser) n off elems off' :
  elements_at (dfu_data self) n off elems off' ->
  forall acc, element_loop self n off acc = Ok (off', acc ++ elems).
Proof.
  induction 1 as [off|n off rest off' Ho Hb _ IH]; intros acc.
  - cbn. now rewrite app_nil_r.
  - pose proof (u32_at_nonneg (dfu_data self) (off + 4)) as Hs.
    cbn [element_loop].
    rewrite unpack_I_at by lia. cbn [bind].
    replace (off + 8) with (off + 4 + 4) at 1 by lia.
    rewrite unpack_I_at by lia. cbn [bind].
    rewrite slice_bytes_at by lia.
    rewrite IH, <- app_assoc. reflexivity.
Qed.

(** The same for the outer loop over well-formed targets. *)
Lemma target_loop_layout (self : DFUParser) n off elems off' :
  targets_at (dfu_data self) n off elems off' ->
  forall acc, target_loop self n off acc = Ok (off', acc ++ elems).
Proof.
  induction 1 as [off|n off elems off1 rest off' Ho Hb Hsig He _ IH];
    intros acc.
  - cbn. now rewrite app_nil_r.
  - cbn [target_loop].
    rewrite target_header_ok by assumption. cbn [bind].
    rewrite (element_loop_layout _ _ _ _ _ He). cbn [bind].
    rewrite IH, app_assoc. reflexivity.
Qed.

(** From 27 bytes on, a buffer that opens with "DfuSe" has a prefix, whose
    target count is byte 10. *)
Lemma parse_prefix_dfuse (self : DFUParser) :
  27 <= len (dfu_data self) ->
  firstn 5 (dfu_data self) = B "DfuSe" ->
  exists p, parse_prefix self = Ok (Some p) /\
            bTargets p = byte_at (dfu_data self) 10.
Proof.
  intros HL Hsig. rewrite (parse_prefix_long self HL).
  apply bytes_eqb_eq in Hsig. rewrite Hsig.
  eexists. split; reflexivity.
Qed.

(** The layout constructors with every field named, for buffers that are
    written out. *)
Lemma elements_at_next (data : bytes) n off addr size payload next rest off' :
  0 <= off ->
  u32_at data off = addr ->
  u32_at data (off + 4) = size ->
  bytes_at data (off + 8) size = payload ->
  off + 8 + size = next ->
  next <= len data ->
  elements_at data n next rest off' ->
  elements_at data (S n) off ((addr, payload) :: rest) off'.
Proof.
  intros Ho <- <- <- <- Hb H. now constructor.
Qed.

Lemma targets_at_next (data : bytes) n off count elems off1 rest all off' :
  0 <= off ->
  off + 274 <= len data ->
  bytes_at data off 6 = B "Target" ->
  Z.to_nat (u32_at data (off + 270)) = count ->
  elements_at data count (off + 274) elems off1 ->
  targets_at data n off1 rest off' ->
  elems ++ rest = all ->
  targets_at data (S n) off all off'.
Proof.
  intros Ho Hb Hsig <- He Ht <-.
  now apply (targets_at_S data n off elems off1 rest off').
Qed.

(** C2: on a well-formed DfuSe buffer (it opens with "DfuSe", holds at least
    27 bytes, and from offset 11 on holds as many targets as byte 10 says,
    each a 274-byte header signed "Target" followed by its elements, all
    inside the buffer), the walk visits the targets and elements in file
    order, moving 274 bytes past each header and 8 + size bytes past each
    element, and [extract] returns one (address, payload) pair per element,
    in that order: the little-endian u32 at the start of the element and the
    [size] bytes after its 8-byte header.  In particular the synthetic file
    with one target and two elements, 4 bytes at 0x08000000 and 8 bytes at
    0x08000004, is extracted as these two pairs in that order. *)
Theorem extract_dfuse_well_formed :
  (forall (self : DFUParser) (elems : list (Z * bytes)) (off' : Z),
     firstn 5 (dfu_data self) = B "DfuSe" ->
     27 <= len (dfu_data self) ->
     targets_at (dfu_data self)
       (Z.to_nat (byte_at (dfu_data self) 10)) 11 elems off' ->
     target_loop self (Z.to_nat (byte_at (dfu_data self) 10)) 11 []
       = Ok (off', elems) /\
     extract self = Ok elems) /\
  (forall payloadA payloadB : bytes,
     List.length payloadA = 4%nat ->
     List.length payloadB = 8%nat ->
     extract (init (synthetic_dfuse payloadA payloadB)) =
       Ok [(0x08000000, payloadA); (0x08000004, payloadB)]).
Proof.
  split.
  - intros self elems off' Hsig HL Hlay.
    pose proof (target_loop_layout self _ _ _ _ Hlay []) as Hloop.
    cbn [app] in Hloop. split; [exact Hloop|].
    rewrite (extract_dfuse self Hsig). unfold extract_dfuse_targets.
    destruct (parse_prefix_dfuse self HL Hsig) as (p & Hp & Hcount).
    rewrite Hp. cbn [bind]. change DFU_PREFIX_LENGTH with 11.
    rewrite Hcount, Hloop. reflexivity.
  - intros payloadA payloadB HA HB.
    destruct_bytes payloadA HA. destruct_bytes payloadB HB.
    vm_compute. reflexivity.
Qed.

(** The synthetic file is well formed in the sense of the theorem, which
    gives its extraction. *)
Lemma extract_dfuse_well_formed_witness :
  firstn 5 (synthetic_dfuse [x01; x02; x03; x04] (B "ABCDEFGH")) = B "DfuSe" /\
  27 <= len (synthetic_dfuse [x01; x02; x03; x04] (B "ABCDEFGH")) /\
  target_loop (init (synthetic_dfuse [x01; x02; x03; x04] (B "ABCDEFGH")))
    1 11 [] =
    Ok (313, [(0x08000000, [x01; x02; x03; x04]); (0x08000004, B "ABCDEFGH")]) /\
  extract (init (synthetic_dfuse [x01; x02; x03; x04] (B "ABCDEFGH"))) =
    Ok [(0x08000000, [x01; x02; x03; x04]); (0x08000004, B "ABCDEFGH")].
Proof.
  split; [reflexivity|]. split; [vm_compute; discriminate|].
  apply (proj1 extract_dfuse_well_formed
           (init (synthetic_dfuse [x01; x02; x03; x04] (B "ABCDEFGH")))).
  - reflexivity.
  - vm_compute; discriminate.
  - change (Z.to_nat (byte_at _ 10)) with 1%nat.
    apply (targets_at_next _ 0 11 2
             [(0x08000000, [x01; x02; x03; x04]); (0x08000004, B "ABCDEFGH")]
             313 []);
      try (vm_compute; first [reflexivity | discriminate]).
    + apply (elements_at_next _ 1 285 _ 4 _ 297);
        try (vm_compute; first [reflexivity | discriminate]).
      apply (elements_at_next _ 0 297 _ 8 _ 313);
        try (vm_compute; first [reflexivity | discriminate]).
      constructor.
    + constructor.
Defined.

(** ** The DfuSe walk on any buffer *)

Lemma slice_length (data : bytes) (off n : Z) :
  0 <= off -> 0 <= n ->
  Z.of_nat (List.length (slice data off (off + n)))
  = Z.max 0 (Z.min n (len data - off)).
Proof.
  intros Ho Hn. rewrite slice_bytes_at by lia. unfold bytes_at, len.
  rewrite length_firstn, length_skipn. lia.
Qed.

(** A 4-byte read decodes when it lies inside the buffer and raises
    [struct.error] when it does not. *)
Lemma unpack_I_short (data : bytes) (off : Z) :
  0 <= off -> len data < off + 4 ->
  unpack_I (slice data off (off + 4)) = Err StructError.
Proof.
  intros Ho Hb. apply unpack_I_length.
  pose proof (slice_length data off 4 Ho ltac:(lia)). lia.
Qed.

(** Indexing the header slice at 6 raises [IndexError] exactly when the
    buffer ends at or before that byte. *)
Lemma index_header_6 (data : bytes) (off : Z) :
  0 <= off ->
  (off + 6 < len data ->
   exists v, index (slice data off (off + 274)) 6 = Ok v) /\
  (len data <= off + 6 ->
   index (slice data off (off + 274)) 6 = Err IndexError).
Proof.
  intros Ho. pose proof (slice_length data off 274 Ho ltac:(lia)) as HL.
  unfold index. change (Z.to_nat 6) with 6%nat.
  destruct (nth_error _ 6) eqn:E; split; intros H.
  - eauto.
  - assert (nth_error (slice data off (off + 274)) 6 <> None) as N
      by congruence.
    apply nth_error_Some in N. lia.
  - apply nth_error_None in E. lia.
  - reflexivity.
Qed.

(** What [target_header] returns, by the signature, the length of the
    buffer and the element count field. *)
Lemma target_header_eval (self : DFUParser) (off : Z) :
  0 <= off ->
  target_header self off =
    if negb (bytes_eqb (slice (dfu_data self) off (off + 6)) (B "Target"))
    then Err (InvalidTargetSignature off)
    else if len (dfu_data self) <=? off + 6 then Err IndexError
    else if len (dfu_data self) <? off + 270 then Err StructError
    else unpack_I (slice (dfu_data self) (off + 270) (off + 274)).
Proof.
  intros Ho. rewrite target_header_reads by lia.
  destruct (negb _); [reflexivity|].
  destruct (index_header_6 (dfu_data self) off Ho) as [Hok Herr].
  destruct (Z.leb_spec (len (dfu_data self)) (off + 6)) as [H6|H6].
  { now rewrite Herr. }
  destruct (Hok H6) as [v ->]. cbn [bind].
  destruct (Z.ltb_spec (len (dfu_data self)) (off + 270)) as [H270|H270].
  - replace (off + 270) with (off + 266 + 4) by lia.
    now rewrite unpack_I_short by lia.
  - replace (off + 270) with (off + 266 + 4) at 1 by lia.
    now rewrite unpack_I_at by lia.
Qed.

Lemma target_header_bad_signature (self : DFUParser) (off : Z) :
  0 <= off ->
  bytes_at (dfu_data self) off 6 <> B "Target" ->
  target_header self off = Err (InvalidTargetSignature off).
Proof.
  intros Ho Hsig. rewrite target_header_eval by lia.
  rewrite slice_bytes_at by lia.
  apply bytes_eqb_neq in Hsig. now rewrite Hsig.
Qed.

Lemma target_header_nonneg (self : DFUParser) (off nb : Z) :
  target_header self off = Ok nb -> 0 <= nb.
Proof.
  unfold target_header. destruct (negb _); [discriminate|].
  unfold bind. destruct (index _ _); [|discriminate].
  destruct (unpack_I _); [|discriminate].
  destruct (unpack_I _) eqn:E; [|discriminate].
  intros [= <-]. now apply unpack_I_nonneg in E.
Qed.

(** One turn of the inner loop. *)
Lemma element_loop_S (self : DFUParser) n off acc res :
  element_loop self (S n) off acc = Ok res ->
  exists addr size,
    unpack_I (slice (dfu_data self) off (off + 4)) = Ok addr /\
    unpack_I (slice (dfu_data self) (off + 4) (off + 8)) = Ok size /\
    0 <= size /\
    element_loop self n (off + 8 + size)
      (acc ++ [(addr, slice (dfu_data self) (off + 8) (off + 8 + size))])
    = Ok res.
Proof.
  cbn [element_loop]. unfold bind.
  destruct (unpack_I _) as [addr|] eqn:Ea; [|discriminate].
  destruct (unpack_I (slice _ (off + 4) _)) as [size|] eqn:Es; [|discriminate].
  intros H. exists addr, size. repeat split; try assumption.
  now apply unpack_I_nonneg in Es.
Qed.

(** The offset only moves forward. *)
Lemma element_loop_offset (self : DFUParser) n :
  forall off acc off' acc',
    element_loop self n off acc = Ok (off', acc') -> off <= off'.
Proof.
  induction n as [|n IH]; intros off acc off' acc' H.
  - cbn in H. injection H as <- _. lia.
  - apply element_loop_S in H as (addr & size & _ & _ & Hs & H).
    apply IH in H. lia.
Qed.

Lemma element_loop_S_offset (self : DFUParser) n off acc off' acc' :
  element_loop self (S n) off acc = Ok (off', acc') -> off + 8 <= off'.
Proof.
  intros H. apply element_loop_S in H as (addr & size & _ & _ & Hs & H).
  apply element_loop_offset in H. lia.
Qed.

Lemma target_loop_offset (self : DFUParser) n :
  forall off acc off' acc',
    target_loop self n off acc = Ok (off', acc') -> off <= off'.
Proof.
  induction n as [|n IH]; intros off acc off' acc' H.
  - cbn in H. injection H as <- _. lia.
  - cbn [target_loop] in H. unfold bind in H.
    destruct (target_header self off); [|discriminate].
    destruct (element_loop self _ _ _) as [[o1 a1]|] eqn:E; [|discriminate].
    apply element_loop_offset in E. apply IH in H. lia.
Qed.

(** The first [k] turns of the outer loop, then the others. *)
Lemma target_loop_split (self : DFUParser) k m :
  forall off acc,
    target_loop self (k + m) off acc =
    '(off1, acc1) <- target_loop self k off acc ;; target_loop self m off1 acc1.
Proof.
  induction k as [|k IH]; intros off acc; [reflexivity|].
  cbn [Nat.add target_loop].
  destruct (target_header self off); [|reflexivity]. cbn [bind].
  destruct (element_loop self _ _ _) as [[o1 a1]|]; [|reflexivity].
  cbn [bind]. apply IH.
Qed.

Lemma element_loop_split (self : DFUParser) k m :
  forall off acc,
    element_loop self (k + m) off acc =
    '(off1, acc1) <- element_loop self k off acc ;;
    element_loop self m off1 acc1.
Proof.
  induction k as [|k IH]; intros off acc; [reflexivity|].
  cbn [Nat.add element_loop].
  destruct (unpack_I _); [|reflexivity]. cbn [bind].
  destruct (unpack_I _); [|reflexivity]. cbn [bind].
  apply IH.
Qed.

(** ** A damaged target signature *)

(** C4: when the walk of a DfuSe buffer stands at a target header (the
    targets before it were walked without error, and it is one of the
    targets the prefix counts) whose 6-byte signature is not "Target",
    [extract] fails with InvalidTargetSignature carrying the offset of that
    header. *)
Theorem extract_invalid_target_signature (self : DFUParser) (k : nat)
    (off : Z) (acc : list (Z * bytes)) :
  firstn 5 (dfu_data self) = B "DfuSe" ->
  27 <= len (dfu_data self) ->
  (k < Z.to_nat (byte_at (dfu_data self) 10))%nat ->
  target_loop self k 11 [] = Ok (off, acc) ->
  bytes_at (dfu_data self) off 6 <> B "Target" ->
  extract self = Err (InvalidTargetSignature off).
Proof.
  intros Hsig HL Hk Hloop Hbad.
  rewrite (extract_dfuse self Hsig). unfold extract_dfuse_targets.
  destruct (parse_prefix_dfuse self HL Hsig) as (p & Hp & Hcount).
  rewrite Hp. cbn [bind]. rewrite Hcount. change DFU_PREFIX_LENGTH with 11.
  replace (Z.to_nat (byte_at (dfu_data self) 10))
    with (k + S (Z.to_nat (byte_at (dfu_data self) 10) - S k))%nat by lia.
  rewrite target_loop_split, Hloop. cbn [bind target_loop].
  apply target_loop_offset in Hloop.
  rewrite target_header_bad_signature by (assumption || lia).
  reflexivity.
Qed.

(** The second target header of the sample file, at offset 297, is the
    damaged one. *)
Lemma extract_invalid_target_signature_witness :
  extract (init bad_signature_dfuse) = Err (InvalidTargetSignature 297).
Proof.
  apply (extract_invalid_target_signature (init bad_signature_dfuse) 1 297
           [(0x08000000, [x01; x02; x03; x04])]).
  - reflexivity.
  - vm_compute; discriminate.
  - vm_compute; lia.
  - vm_compute; reflexivity.
  - vm_compute; discriminate.
Defined.

(** ** An element larger than what is left of the buffer *)

Lemma slice_past_end (data : bytes) (lo hi : Z) :
  0 <= lo -> len data <= hi ->
  slice data lo hi = skipn (Z.to_nat lo) data.
Proof.
  intros Hlo Hhi. pose proof (len_nonneg data).
  rewrite slice_nonneg by lia.
  apply firstn_all2. rewrite length_skipn. unfold len in *. lia.
Qed.

(** An element header that does not fit raises [struct.error]. *)
Lemma element_loop_short_header (self : DFUParser) n off acc :
  0 <= off -> len (dfu_data self) < off + 8 ->
  element_loop self (S n) off acc = Err StructError.
Proof.
  intros Ho Hb. cbn [element_loop].
  destruct (Z.lt_ge_cases (len (dfu_data self)) (off + 4)) as [H4|H4].
  - now rewrite unpack_I_short by lia.
  - rewrite unpack_I_at by lia. cbn [bind].
    replace (off + 8) with (off + 4 + 4) by lia.
    now rewrite unpack_I_short by lia.
Qed.

(** An element whose declared size runs past the end of the buffer is
    taken with the bytes that are left, and the offset moves on by the
    declared size. *)
Lemma element_loop_truncated (self : DFUParser) n off acc :
  0 <= off -> off + 8 <= len (dfu_data self) ->
  len (dfu_data self) - (off + 8) < u32_at (dfu_data self) (off + 4) ->
  element_loop self (S n) off acc =
  element_loop self n (off + 8 + u32_at (dfu_data self) (off + 4))
    (acc ++ [(u32_at (dfu_data self) off,
              skipn (Z.to_nat (off + 8)) (dfu_data self))]).
Proof.
  intros Ho Hb Hsz. cbn [element_loop].
  rewrite unpack_I_at by lia. cbn [bind].
  replace (off + 8) with (off + 4 + 4) at 1 by lia.
  rewrite unpack_I_at by lia. cbn [bind].
  rewrite slice_past_end by lia. reflexivity.
Qed.

(** Where the walk stands after [k] targets and [j] elements of the next
    one, the rest of [extract] is the rest of the two loops. *)
Lemma extract_from_element (self : DFUParser) (k t j m : nat) (nb : Z)
    off_t acc off_e acc' :
  firstn 5 (dfu_data self) = B "DfuSe" ->
  27 <= len (dfu_data self) ->
  Z.to_nat (byte_at (dfu_data self) 10) = (k + S t)%nat ->
  target_loop self k 11 [] = Ok (off_t, acc) ->
  target_header self off_t = Ok nb ->
  Z.to_nat nb = (j + S m)%nat ->
  element_loop self j (off_t + 274) acc = Ok (off_e, acc') ->
  extract self =
    '(off1, acc1) <- element_loop self (S m) off_e acc' ;;
    '(_, res) <- target_loop self t off1 acc1 ;;
    Ok res.
Proof.
  intros Hsig HL Hk Ht Hh Hj He.
  rewrite (extract_dfuse self Hsig). unfold extract_dfuse_targets.
  destruct (parse_prefix_dfuse self HL Hsig) as (p & Hp & Hcount).
  rewrite Hp. cbn [bind]. rewrite Hcount, Hk. change DFU_PREFIX_LENGTH with 11.
  rewrite target_loop_split, Ht. cbn [bind target_loop].
  rewrite Hh. cbn [bind]. rewrite Hj, element_loop_split, He. cbn [bind].
  destruct (element_loop self (S m) off_e acc') as [[o1 a1]|]; reflexivity.
Qed.

(** C3, as the code has it: there is no bounds check and no TruncatedData
    error.  Where the walk of a DfuSe buffer stands at an element (after [k]
    targets and [j] elements of the next one, [m] more elements and [t] more
    targets being declared after it): if the 8-byte element header does not
    fit in the buffer, [extract] fails with [struct.error]; if the header
    fits and the declared size exceeds the bytes that are left, the payload
    is the bytes that are left (the slice stops at the end of the buffer)
    and the walk goes on from the declared end, so that [extract] returns
    the pairs with this shortened payload last when the element is the last
    one of the last target, and fails on the next read otherwise
    ([struct.error] for a next element, InvalidTargetSignature at the
    declared end for a next target). *)
Theorem extract_unchecked_element_size (self : DFUParser) (k t j m : nat)
    (nb off_t off_e : Z) (acc acc' : list (Z * bytes)) :
  firstn 5 (dfu_data self) = B "DfuSe" ->
  27 <= len (dfu_data self) ->
  Z.to_nat (byte_at (dfu_data self) 10) = (k + S t)%nat ->
  target_loop self k 11 [] = Ok (off_t, acc) ->
  target_header self off_t = Ok nb ->
  Z.to_nat nb = (j + S m)%nat ->
  element_loop self j (off_t + 274) acc = Ok (off_e, acc') ->
  let size := u32_at (dfu_data self) (off_e + 4) in
  let elem := (u32_at (dfu_data self) off_e,
               skipn (Z.to_nat (off_e + 8)) (dfu_data self)) in
  (len (dfu_data self) < off_e + 8 -> extract self = Err StructError) /\
  (off_e + 8 <= len (dfu_data self) ->
   len (dfu_data self) - (off_e + 8) < size ->
   (m = O -> t = O -> extract self = Ok (acc' ++ [elem])) /\
   (m <> O -> extract self = Err StructError) /\
   (m = O -> t <> O ->
    extract self = Err (InvalidTargetSignature (off_e + 8 + size)))).
Proof.
  intros Hsig HL Hk Ht Hh Hj He size elem.
  rewrite (extract_from_element self k t j m nb off_t acc off_e acc')
    by assumption.
  apply target_loop_offset in Ht. apply element_loop_offset in He.
  split.
  - intros Hshort. now rewrite element_loop_short_header by lia.
  - intros Hfit Hsize. rewrite element_loop_truncated by lia.
    fold size elem. repeat split.
    + intros -> ->. reflexivity.
    + intros Hm. destruct m as [|m]; [congruence|].
      now rewrite element_loop_short_header by lia.
    + intros -> Hnt. destruct t as [|t]; [congruence|].
      cbn [element_loop bind target_loop].
      rewrite target_header_bad_signature; [reflexivity|lia|].
      unfold bytes_at. rewrite skipn_all2 by (unfold len in *; lia).
      rewrite firstn_nil. discriminate.
Qed.

(** The sample file cut inside its only element: the walk stands at that
    element (offset 285) with no target and no element before it. *)
Lemma extract_unchecked_element_size_witness :
  u32_at truncated_dfuse 289 = 100 /\
  len truncated_dfuse - 293 = 20 /\
  extract (init truncated_dfuse) =
    Ok [(0x08000000, [xde; xad; xbe; xef] ++ suffix_bytes)].
Proof.
  split; [reflexivity|]. split; [reflexivity|].
  refine (proj1 (proj2 (extract_unchecked_element_size
                          (init truncated_dfuse) 0 0 0 0 1 11 285 [] []
                          _ _ _ _ _ _ _) _ _) eq_refl eq_refl).
  - reflexivity.
  - vm_compute; discriminate.
  - reflexivity.
  - reflexivity.
  - vm_compute; reflexivity.
  - reflexivity.
  - reflexivity.
  - vm_compute; discriminate.
  - vm_compute; reflexivity.
Defined.

(** C3 as the specification states it fails: the only element of this
    DfuSe file declares 100 payload bytes where 20 bytes are left in the
    buffer, and [extract] does not fail: it returns the element with the 20
    bytes that are left, the 16 bytes of the suffix among them. *)
Lemma extract_truncated_counterexample :
  firstn 5 truncated_dfuse = B "DfuSe" /\
  u32_at truncated_dfuse 289 = 100 /\
  len truncated_dfuse - 293 = 20 /\
  extract (init truncated_dfuse) =
    Ok [(0x08000000, [xde; xad; xbe; xef] ++ suffix_bytes)] /\
  ~ (exists e, extract (init truncated_dfuse) = Err e).
Proof.
  repeat split; try reflexivity.
  intros [e He]. vm_compute in He. discriminate He.
Qed.

(** ** Fields that are decoded and dropped *)

(** The result list only grows at its end: the loop does the same from any
    list it is handed. *)
Lemma element_loop_acc (self : DFUParser) n :
  forall off acc,
    element_loop self n off acc =
    match element_loop self n off [] with
    | Ok (off', res) => Ok (off', acc ++ res)
    | Err e => Err e
    end.
Proof.
  induction n as [|n IH]; intros off acc.
  - cbn. now rewrite app_nil_r.
  - cbn [element_loop].
    destruct (unpack_I _) as [addr|]; [|reflexivity]. cbn [bind].
    destruct (unpack_I _) as [size|]; [|reflexivity]. cbn [bind].
    rewrite IH. rewrite (IH _ ([] ++ _)).
    destruct (element_loop self n _ []) as [[o1 r1]|]; [|reflexivity].
    now rewrite <- app_assoc.
Qed.

Lemma header_offsets_ge (self : DFUParser) n :
  forall off h, 0 <= off -> In h (header_offsets self n off) -> off <= h.
Proof.
  induction n as [|n IH]; intros off h Ho Hin; [contradiction|].
  cbn [header_offsets] in Hin. destruct Hin as [<-|Hin]; [lia|].
  destruct (target_header self off); [|contradiction].
  destruct (element_loop self _ _ _) as [[o1 r1]|] eqn:E; [|contradiction].
  apply element_loop_offset in E. apply IH in Hin; lia.
Qed.

(** Slices are equal where the bytes are. *)
Lemma slice_same (d1 d2 : bytes) (lo hi : Z) :
  0 <= lo -> 0 <= hi ->
  (forall i, lo <= i < hi ->
             nth_error d1 (Z.to_nat i) = nth_error d2 (Z.to_nat i)) ->
  slice d1 lo hi = slice d2 lo hi.
Proof.
  intros Hlo Hhi H. rewrite !slice_nonneg by lia.
  apply nth_error_ext. intros n.
  rewrite !nth_error_firstn, !nth_error_skipn.
  destruct (Nat.ltb_spec n (Z.to_nat (hi - lo))) as [Hn|Hn]; [|reflexivity].
  specialize (H (lo + Z.of_nat n) ltac:(lia)).
  now replace (Z.to_nat (lo + Z.of_nat n)) with (Z.to_nat lo + n)%nat in H
    by lia.
Qed.

Lemma header_offsets_In (self : DFUParser) n off h :
  In h (header_offsets self (S n) off) ->
  h = off \/
  exists nb off1 res,
    target_header self off = Ok nb /\
    element_loop self (Z.to_nat nb) (off + 274) [] = Ok (off1, res) /\
    In h (header_offsets self n off1).
Proof.
  cbn [header_offsets]. intros [<-|Hin]; [now left|right].
  destruct (target_header self off) as [nb|]; [|contradiction].
  destruct (element_loop self _ _ _) as [[o1 r1]|] eqn:E; [|contradiction].
  now exists nb, o1, r1.
Qed.

Lemma header_offsets_next (self : DFUParser) n off nb acc off1 acc1 :
  target_header self off = Ok nb ->
  element_loop self (Z.to_nat nb) (off + 274) acc = Ok (off1, acc1) ->
  header_offsets self (S n) off = off :: header_offsets self n off1.
Proof.
  intros Hh He. cbn [header_offsets]. rewrite Hh.
  rewrite element_loop_acc in He.
  destruct (element_loop self _ _ []) as [[o1 r1]|]; [|discriminate].
  now injection He as -> _.
Qed.

Section SameOutside.
Variables s1 s2 : DFUParser.
Hypothesis same_length :
  List.length (dfu_data s1) = List.length (dfu_data s2).

(** The inner loop reads nothing before its start and, when it ends,
    nothing from its end on. *)
Lemma element_loop_agree n :
  forall off acc,
    0 <= off ->
    (forall i, off <= i ->
       (forall off' res,
          element_loop s1 n off acc = Ok (off', res) -> i < off') ->
       same_at (dfu_data s1) (dfu_data s2) i) ->
    element_loop s1 n off acc = element_loop s2 n off acc.
Proof.
  induction n as [|n IH]; intros off acc Ho H; [reflexivity|].
  assert (A1 : slice (dfu_data s1) off (off + 4)
               = slice (dfu_data s2) off (off + 4)).
  { apply slice_same; try lia. intros i Hi. apply H; [lia|].
    intros off' res E. apply element_loop_S_offset in E. lia. }
  assert (A2 : slice (dfu_data s1) (off + 4) (off + 8)
               = slice (dfu_data s2) (off + 4) (off + 8)).
  { apply slice_same; try lia. intros i Hi. apply H; [lia|].
    intros off' res E. apply element_loop_S_offset in E. lia. }
  cbn [element_loop]. rewrite <- A1, <- A2.
  destruct (unpack_I (slice (dfu_data s1) off (off + 4)))
    as [addr|] eqn:Ea; [|reflexivity].
  destruct (unpack_I (slice (dfu_data s1) (off + 4) (off + 8)))
    as [size|] eqn:Es; [|reflexivity].
  cbn [bind]. pose proof (unpack_I_nonneg _ _ Es) as Hs.
  assert (Hstep : forall off' res,
            element_loop s1 (S n) off acc = Ok (off', res) ->
            element_loop s1 n (off + 8 + size)
              (acc ++ [(addr, slice (dfu_data s1) (off + 8) (off + 8 + size))])
            = Ok (off', res)).
  { intros off' res E. cbn [element_loop] in E.
    rewrite Ea, Es in E. exact E. }
  assert (A3 : slice (dfu_data s1) (off + 8) (off + 8 + size)
               = slice (dfu_data s2) (off + 8) (off + 8 + size)).
  { apply slice_same; try lia. intros i Hi. apply H; [lia|].
    intros off' res E. apply Hstep, element_loop_offset in E. lia. }
  rewrite <- A3. apply IH; [lia|].
  intros i Hi Hok. apply H; [lia|].
  intros off' res E. apply (Hok off' res). now apply Hstep.
Qed.

(** The header read looks at the signature, at the element count and at
    the length of the buffer. *)
Lemma target_header_agree off :
  0 <= off ->
  (forall i, off <= i < off + 6 \/ off + 270 <= i < off + 274 ->
             same_at (dfu_data s1) (dfu_data s2) i) ->
  target_header s1 off = target_header s2 off.
Proof.
  intros Ho H. rewrite !target_header_eval by lia.
  unfold len. rewrite same_length.
  rewrite (slice_same (dfu_data s1) (dfu_data s2) off (off + 6))
    by (try lia; intros; apply H; lia).
  rewrite (slice_same (dfu_data s1) (dfu_data s2) (off + 270) (off + 274))
    by (try lia; intros; apply H; lia).
  reflexivity.
Qed.

(** The outer loop reads nothing before its start and, from there on,
    nothing of the dropped fields of the headers it visits. *)
Lemma target_loop_agree n :
  forall off acc,
    0 <= off ->
    (forall i, off <= i ->
               ~ in_header_metadata (header_offsets s1 n off) i ->
               same_at (dfu_data s1) (dfu_data s2) i) ->
    target_loop s1 n off acc = target_loop s2 n off acc.
Proof.
  induction n as [|n IH]; intros off acc Ho H; [reflexivity|].
  assert (Htail : forall h, In h (header_offsets s1 (S n) off) ->
                            h = off \/ off + 274 <= h).
  { intros h Hin. apply header_offsets_In in Hin
      as [->|(nb & o1 & r1 & _ & E & Hin)]; [now left|right].
    apply element_loop_offset in E.
    apply header_offsets_ge in Hin; lia. }
  cbn [target_loop].
  rewrite <- (target_header_agree off Ho).
  2:{ intros i Hi. apply H; [lia|]. intros (h & Hin & Hr).
      apply Htail in Hin. lia. }
  destruct (target_header s1 off) as [nb|] eqn:Eh; [|reflexivity].
  cbn [bind].
  rewrite <- (element_loop_agree (Z.to_nat nb) (off + 274) acc ltac:(lia)).
  2:{ intros i Hi Hok. apply H; [lia|]. intros (h & Hin & Hr).
      apply header_offsets_In in Hin
        as [->|(nb' & o1 & r1 & Eh' & E & Hin)]; [lia|].
      rewrite Eh in Eh'. injection Eh' as <-.
      pose proof (element_loop_offset _ _ _ _ _ _ E) as Ho1.
      apply header_offsets_ge in Hin; [|lia].
      specialize (Hok o1 (acc ++ r1)).
      rewrite element_loop_acc, E in Hok. specialize (Hok eq_refl). lia. }
  destruct (element_loop s1 (Z.to_nat nb) (off + 274) acc)
    as [[o1 a1]|] eqn:E; [|reflexivity].
  cbn [bind].
  pose proof (element_loop_offset _ _ _ _ _ _ E) as Ho1.
  apply IH; [lia|]. intros i Hi Hnot. apply H; [lia|].
  intros (h & Hin & Hr).
  rewrite (header_offsets_next s1 n off nb acc o1 a1 Eh E) in Hin.
  destruct Hin as [<-|Hin]; [lia|].
  apply Hnot. now exists h.
Qed.
End SameOutside.

Lemma nth_same (d1 d2 : bytes) (n : nat) :
  nth_error d1 n = nth_error d2 n -> nth n d1 x00 = nth n d2 x00.
Proof.
  intros H. destruct (nth_error d1 n) as [x|] eqn:E1.
  - symmetry in H. apply nth_error_nth with (d := x00) in E1, H. congruence.
  - symmetry in H. apply nth_error_None in E1, H.
    now rewrite !nth_overflow by assumption.
Qed.

(** No metadata position lies in the signature of the prefix or on its
    target count. *)
Lemma metadata_position_prefix (self : DFUParser) (i : Z) :
  metadata_position self i -> 5 <= i /\ i <> 10.
Proof.
  intros [H|(h & Hin & Hr)]; [lia|].
  apply header_offsets_ge in Hin; lia.
Qed.

(** Writing over a run of positions that are all skipped. *)
Lemma same_outside_overwrite (skip : Z -> Prop) (d new : bytes) (a : Z) :
  0 <= a -> a + len new <= len d ->
  (forall i, a <= i < a + len new -> skip i) ->
  same_outside skip d
    (firstn (Z.to_nat a) d ++ new ++ skipn (Z.to_nat (a + len new)) d).
Proof.
  intros Ha Hb Hskip. unfold len in *. split.
  - rewrite !length_app, length_firstn, length_skipn. lia.
  - intros i Hi Hn. unfold same_at.
    destruct (Z.lt_ge_cases i a) as [Hlo|Hge].
    + rewrite nth_error_app1 by (rewrite length_firstn; lia).
      rewrite nth_error_firstn.
      destruct (Nat.ltb_spec (Z.to_nat i) (Z.to_nat a)); [reflexivity|lia].
    + destruct (Z.lt_ge_cases i (a + Z.of_nat (List.length new)))
        as [Hin|Hhi]; [exfalso; apply Hn, Hskip; lia|].
      rewrite nth_error_app2 by (rewrite length_firstn; lia).
      rewrite nth_error_app2 by (rewrite length_firstn; lia).
      rewrite nth_error_skipn, length_firstn. f_equal. lia.
Qed.

(** C10: the result of [extract] on a DfuSe buffer does not depend on the
    fields that are decoded and dropped.  Two buffers of the same length
    that differ only in the version and image size of the prefix (bytes
    5..9) and, in the target headers the walk reads, in the alternate
    setting and the bytes after it (header offsets 6..10), the name (11..265)
    and the size (266..269), are extracted to the same result, error or
    list. *)
Theorem extract_ignores_metadata (s1 s2 : DFUParser) :
  firstn 5 (dfu_data s1) = B "DfuSe" ->
  same_outside (metadata_position s1) (dfu_data s1) (dfu_data s2) ->
  extract s1 = extract s2.
Proof.
  intros Hsig [Hlen Hsame].
  assert (Hfree : forall i, 0 <= i -> (i < 5 \/ i = 10) ->
            nth_error (dfu_data s1) (Z.to_nat i)
            = nth_error (dfu_data s2) (Z.to_nat i)).
  { intros i Hi Hr. apply Hsame; [lia|].
    intros M. apply metadata_position_prefix in M. lia. }
  assert (Hsig2 : firstn 5 (dfu_data s2) = B "DfuSe").
  { rewrite <- Hsig. change 5%nat with (Z.to_nat 5).
    rewrite <- !slice_to_firstn by lia. unfold slice_to. symmetry.
    apply slice_same; try lia. intros i Hi. apply Hfree; lia. }
  rewrite (extract_dfuse s1 Hsig), (extract_dfuse s2 Hsig2).
  unfold extract_dfuse_targets.
  destruct (Z.lt_ge_cases (len (dfu_data s1)) 27) as [Hshort|Hlong].
  - rewrite (parse_prefix_short s1 Hshort).
    rewrite (parse_prefix_short s2); [reflexivity|unfold len in *; lia].
  - destruct (parse_prefix_dfuse s1 Hlong Hsig) as (p1 & -> & Hc1).
    destruct (parse_prefix_dfuse s2) as (p2 & -> & Hc2);
      [unfold len in *; lia|assumption|].
    cbn [bind]. rewrite Hc1, Hc2.
    assert (Hcount : byte_at (dfu_data s2) 10 = byte_at (dfu_data s1) 10).
    { unfold byte_at. f_equal. symmetry. apply nth_same, Hfree; lia. }
    rewrite Hcount.
    rewrite (target_loop_agree s1 s2 Hlen _ DFU_PREFIX_LENGTH []);
      [reflexivity|unfold DFU_PREFIX_LENGTH; lia|].
    intros i Hi Hnot. apply Hsame; [unfold DFU_PREFIX_LENGTH in Hi; lia|].
    intros [M|M]; [unfold DFU_PREFIX_LENGTH in Hi; lia|].
    now apply Hnot.
Qed.

(** The sample file and the file whose header metadata was overwritten
    differ, and are extracted alike. *)
Lemma extract_ignores_metadata_witness :
  sample_dfuse <> relabelled_dfuse /\
  extract (init sample_dfuse) = extract (init relabelled_dfuse).
Proof.
  split; [vm_compute; discriminate|].
  apply (extract_ignores_metadata (init sample_dfuse) (init relabelled_dfuse)).
  - reflexivity.
  - apply (same_outside_overwrite _ sample_dfuse (repeat xff 264) 17).
    + lia.
    + vm_compute; discriminate.
    + intros i Hi. change (len (repeat xff 264)) with 264 in Hi.
      right. exists 11. split; [vm_compute; left; reflexivity|lia].
Defined.


(** * Further properties of the parser *)

(** ** Walks that end inside the buffer *)

Lemma total_payload_app (xs ys : list (Z * bytes)) :
  total_payload (xs ++ ys) = total_payload xs + total_payload ys.
Proof.
  unfold total_payload. induction xs as [|x xs IH]; cbn [app fold_right];
    [reflexivity|].
  rewrite IH. lia.
Qed.

Lemma total_payload_nonneg (xs : list (Z * bytes)) : 0 <= total_payload xs.
Proof.
  unfold total_payload. induction xs as [|x xs IH]; cbn [fold_right]; [lia|].
  pose proof (len_nonneg (snd x)). lia.
Qed.

(** A 4-byte read that succeeds lies inside the buffer and gives the u32
    there. *)
Lemma unpack_I_inv (data : bytes) (off v : Z) :
  0 <= off ->
  unpack_I (slice data off (off + 4)) = Ok v ->
  off + 4 <= len data /\ v = u32_at data off.
Proof.
  intros Ho H.
  destruct (Z.lt_ge_cases (len data) (off + 4)) as [Hs|Hl].
  - rewrite unpack_I_short in H by lia. discriminate.
  - rewrite unpack_I_at in H by lia. injection H as <-. now split.
Qed.

Lemma target_header_inv (self : DFUParser) (off nb : Z) :
  0 <= off ->
  target_header self off = Ok nb ->
  off + 274 <= len (dfu_data self) /\
  bytes_at (dfu_data self) off 6 = B "Target" /\
  nb = u32_at (dfu_data self) (off + 270).
Proof.
  intros Ho. rewrite target_header_eval by lia.
  rewrite slice_bytes_at by lia.
  destruct (bytes_eqb _ _) eqn:Esig; cbn [negb]; [|discriminate].
  apply bytes_eqb_eq in Esig.
  destruct (Z.leb_spec (len (dfu_data self)) (off + 6)); [discriminate|].
  destruct (Z.ltb_spec (len (dfu_data self)) (off + 270)); [discriminate|].
  replace (off + 274) with (off + 270 + 4) by lia.
  intros Hu. apply unpack_I_inv in Hu as [Hb ->]; [|lia].
  repeat split; [lia|assumption].
Qed.

(** A run of the inner loop that ends inside the buffer walked a
    well-formed run of elements. *)
Lemma element_loop_complete (self : DFUParser) n :
  forall off acc off' acc',
    0 <= off ->
    element_loop self n off acc = Ok (off', acc') ->
    off' <= len (dfu_data self) ->
    exists new, acc' = acc ++ new /\
                elements_at (dfu_data self) n off new off'.
Proof.
  induction n as [|n IH]; intros off acc off' acc' Ho H Hend.
  - cbn in H. injection H as <- <-. exists []. rewrite app_nil_r.
    split; [reflexivity|constructor].
  - apply element_loop_S in H as (addr & size & Ea & Es & Hs & H).
    pose proof (element_loop_offset _ _ _ _ _ _ H) as Hmono.
    apply unpack_I_inv in Ea as [_ ->]; [|lia].
    replace (off + 8) with (off + 4 + 4) in Es by lia.
    apply unpack_I_inv in Es as [_ ->]; [|lia].
    rewrite slice_bytes_at in H by lia.
    apply IH in H as (new & -> & Hlay); [|lia|assumption].
    eexists. split; [now rewrite <- app_assoc|].
    cbn [app]. constructor; [lia|lia|assumption].
Qed.

Lemma target_loop_complete (self : DFUParser) n :
  forall off acc off' acc',
    0 <= off ->
    target_loop self n off acc = Ok (off', acc') ->
    off' <= len (dfu_data self) ->
    exists new, acc' = acc ++ new /\
                targets_at (dfu_data self) n off new off'.
Proof.
  induction n as [|n IH]; intros off acc off' acc' Ho H Hend.
  - cbn in H. injection H as <- <-. exists []. rewrite app_nil_r.
    split; [reflexivity|constructor].
  - cbn [target_loop] in H.
    destruct (target_header self off) as [nb|] eqn:Eh; [|discriminate].
    cbn [bind] in H.
    destruct (element_loop self _ _ _) as [[o1 a1]|] eqn:Ee; [|discriminate].
    cbn [bind] in H.
    pose proof (element_loop_offset _ _ _ _ _ _ Ee) as M1.
    pose proof (target_loop_offset _ _ _ _ _ _ H) as M2.
    apply target_header_inv in Eh as (Hb & Hsig & ->); [|lia].
    apply element_loop_complete in Ee as (new1 & -> & Hlay1); [|lia|lia].
    apply IH in H as (new2 & -> & Hlay2); [|lia|assumption].
    exists (new1 ++ new2). split; [now rewrite app_assoc|].
    now apply (targets_at_S _ n off new1 o1 new2 off').
Qed.

(** The bytes a layout covers: 8 per element and 274 per target, beside
    the payloads. *)
Lemma elements_at_account (data : bytes) n off elems off' :
  elements_at data n off elems off' ->
  List.length elems = n /\
  off' = off + 8 * Z.of_nat n + total_payload elems.
Proof.
  induction 1 as [off|n off rest off' Ho Hb _ [IHn IHo]].
  - cbn. split; [reflexivity|lia].
  - pose proof (u32_at_nonneg data (off + 4)) as Hs.
    split; [cbn; now rewrite IHn|].
    unfold total_payload in *. cbn [fold_right snd].
    unfold len at 1. rewrite bytes_at_length by lia. lia.
Qed.

Lemma targets_at_account (data : bytes) n off elems off' :
  targets_at data n off elems off' ->
  off' = off + 274 * Z.of_nat n + 8 * Z.of_nat (List.length elems)
         + total_payload elems.
Proof.
  induction 1 as [off|n off elems off1 rest off' Ho Hb Hsig He _ IH].
  - cbn. lia.
  - apply elements_at_account in He as [Hn He].
    rewrite total_payload_app, length_app. lia.
Qed.

(** X1: a walk of [n] targets from offset 11 that ends inside the buffer
    has read a well-formed layout (every header signed "Target", every
    header and element inside the buffer, no payload shortened), and its end
    offset is 11 + 274 per target + 8 per element + the payload bytes. *)
Theorem walk_inside_buffer (self : DFUParser) (n : nat) (off' : Z)
    (elems : list (Z * bytes)) :
  target_loop self n 11 [] = Ok (off', elems) ->
  off' <= len (dfu_data self) ->
  targets_at (dfu_data self) n 11 elems off' /\
  off' = 11 + 274 * Z.of_nat n + 8 * Z.of_nat (List.length elems)
         + total_payload elems.
Proof.
  intros H Hend.
  apply target_loop_complete in H as (new & E & Hlay); [|lia|assumption].
  cbn [app] in E. subst new.
  split; [assumption|]. exact (targets_at_account _ _ _ _ _ Hlay).
Qed.

Lemma walk_inside_buffer_witness :
  targets_at sample_dfuse 1 11
    [(0x08000000, [x01; x02; x03; x04]); (0x08000004, B "ABCDEFGH")] 313 /\
  313 = 11 + 274 * 1 + 8 * 2
        + total_payload
            [(0x08000000, [x01; x02; x03; x04]); (0x08000004, B "ABCDEFGH")].
Proof.
  apply (walk_inside_buffer (init sample_dfuse) 1 313).
  - vm_compute; reflexivity.
  - vm_compute; discriminate.
Defined.

(** ** Bytes after the end of the walk *)

Lemma u32_at_same (d1 d2 : bytes) (off : Z) :
  0 <= off ->
  (forall i, off <= i < off + 4 -> same_at d1 d2 i) ->
  u32_at d1 off = u32_at d2 off.
Proof.
  intros Ho H. unfold u32_at, byte_at.
  rewrite (nth_same d1 d2 (Z.to_nat off)) by (apply H; lia).
  rewrite (nth_same d1 d2 (Z.to_nat (off + 1))) by (apply H; lia).
  rewrite (nth_same d1 d2 (Z.to_nat (off + 2))) by (apply H; lia).
  rewrite (nth_same d1 d2 (Z.to_nat (off + 3))) by (apply H; lia).
  reflexivity.
Qed.

Lemma bytes_at_same (d1 d2 : bytes) (off n : Z) :
  0 <= off -> 0 <= n ->
  (forall i, off <= i < off + n -> same_at d1 d2 i) ->
  bytes_at d1 off n = bytes_at d2 off n.
Proof.
  intros Ho Hn H. rewrite <- !slice_bytes_at by lia.
  apply slice_same; try lia. exact H.
Qed.

Lemma firstn_same (d1 d2 : bytes) (k : Z) :
  firstn (Z.to_nat k) d1 = firstn (Z.to_nat k) d2 ->
  forall i, 0 <= i < k -> same_at d1 d2 i.
Proof.
  intros H i Hi. unfold same_at.
  assert (E : nth_error (firstn (Z.to_nat k) d1) (Z.to_nat i)
              = nth_error (firstn (Z.to_nat k) d2) (Z.to_nat i))
    by now rewrite H.
  rewrite !nth_error_firstn in E.
  destruct (Nat.ltb_spec (Z.to_nat i) (Z.to_nat k)); [assumption|lia].
Qed.

Section SameStart.
Variables d1 d2 : bytes.
Variable bound : Z.
Hypothesis same_start : forall i, 0 <= i < bound -> same_at d1 d2 i.
Hypothesis long_enough : bound <= len d2.

(** A layout that ends at or before [bound] is a layout of every buffer
    with the same bytes up to [bound]. *)
Lemma elements_at_same_start n off elems off' :
  elements_at d1 n off elems off' ->
  off' <= bound ->
  elements_at d2 n off elems off'.
Proof.
  induction 1 as [off|n off rest off' Ho Hb Hrest IH]; intros Hend;
    [constructor|].
  pose proof (proj2 (elements_at_account _ _ _ _ _ Hrest)) as Hacc.
  pose proof (total_payload_nonneg rest) as Hnn.
  pose proof (u32_at_nonneg d1 (off + 4)) as Hs.
  rewrite (u32_at_same d1 d2 off) by (try lia; intros; apply same_start; lia).
  rewrite (bytes_at_same d1 d2 (off + 8))
    by (try lia; intros; apply same_start; lia).
  assert (Es : u32_at d1 (off + 4) = u32_at d2 (off + 4))
    by (apply u32_at_same; try lia; intros; apply same_start; lia).
  rewrite Es in *.
  constructor; [lia|lia|]. now apply IH.
Qed.

Lemma targets_at_same_start n off elems off' :
  targets_at d1 n off elems off' ->
  off' <= bound ->
  targets_at d2 n off elems off'.
Proof.
  induction 1 as [off|n off elems off1 rest off' Ho Hb Hsig He Hrest IH];
    intros Hend; [constructor|].
  pose proof (targets_at_account _ _ _ _ _ Hrest) as Hacc.
  pose proof (total_payload_nonneg rest) as Hnn.
  pose proof (proj2 (elements_at_account _ _ _ _ _ He)) as Hacc1.
  pose proof (total_payload_nonneg elems) as Hnn1.
  apply (targets_at_S d2 n off elems off1 rest off'); try lia.
  - rewrite <- Hsig. symmetry.
    apply bytes_at_same; try lia. intros; apply same_start; lia.
  - rewrite <- (u32_at_same d1 d2 (off + 270))
      by (try lia; intros; apply same_start; lia).
    apply elements_at_same_start; [assumption|lia].
  - now apply IH.
Qed.
End SameStart.

(** A DfuSe buffer with a well-formed layout is extracted to the pairs of
    the layout. *)
Lemma extract_layout (self : DFUParser) (elems : list (Z * bytes)) (off' : Z) :
  firstn 5 (dfu_data self) = B "DfuSe" ->
  27 <= len (dfu_data self) ->
  targets_at (dfu_data self)
    (Z.to_nat (byte_at (dfu_data self) 10)) 11 elems off' ->
  extract self = Ok elems.
Proof.
  intros Hsig HL Hlay.
  rewrite (extract_dfuse self Hsig). unfold extract_dfuse_targets.
  destruct (parse_prefix_dfuse self HL Hsig) as (p & Hp & Hcount).
  rewrite Hp. cbn [bind]. change DFU_PREFIX_LENGTH with 11.
  rewrite Hcount, (target_loop_layout self _ _ _ _ Hlay []). reflexivity.
Qed.

(** X2: on the DfuSe path nothing after the end of the walk is read, the
    DFU suffix included.  When the walk of a DfuSe buffer of at least 27
    bytes ends at [off'] inside the buffer, every buffer of at least 27 bytes
    with the same first [off'] bytes is extracted to the same list. *)
Theorem extract_ignores_trailing_bytes (s1 s2 : DFUParser) (off' : Z)
    (elems : list (Z * bytes)) :
  firstn 5 (dfu_data s1) = B "DfuSe" ->
  27 <= len (dfu_data s1) ->
  target_loop s1 (Z.to_nat (byte_at (dfu_data s1) 10)) 11 [] = Ok (off', elems) ->
  off' <= len (dfu_data s1) ->
  firstn (Z.to_nat off') (dfu_data s1) = firstn (Z.to_nat off') (dfu_data s2) ->
  off' <= len (dfu_data s2) ->
  27 <= len (dfu_data s2) ->
  extract s1 = Ok elems /\ extract s2 = Ok elems.
Proof.
  intros Hsig HL1 Hwalk Hend1 Hstart Hend2 HL2.
  pose proof (target_loop_offset _ _ _ _ _ _ Hwalk) as Hoff.
  pose proof (firstn_same _ _ _ Hstart) as Hsame.
  apply target_loop_complete in Hwalk as (new & E & Hlay); [|lia|assumption].
  cbn [app] in E. subst new.
  split; [now apply (extract_layout s1 elems off')|].
  apply (extract_layout s2 elems off'); [|assumption|].
  - rewrite <- Hsig. change 5%nat with (Z.to_nat 5).
    rewrite <- !slice_to_firstn by lia. unfold slice_to. symmetry.
    apply slice_same; try lia. intros i Hi. apply Hsame. lia.
  - replace (byte_at (dfu_data s2) 10) with (byte_at (dfu_data s1) 10).
    + apply (targets_at_same_start (dfu_data s1) (dfu_data s2) off' Hsame
               Hend2 _ _ _ _ Hlay). lia.
    + unfold byte_at. f_equal. apply nth_same, Hsame. lia.
Qed.

Lemma extract_ignores_trailing_bytes_witness :
  extract (init sample_dfuse) =
    Ok [(0x08000000, [x01; x02; x03; x04]); (0x08000004, B "ABCDEFGH")] /\
  extract (init retrailed_dfuse) =
    Ok [(0x08000000, [x01; x02; x03; x04]); (0x08000004, B "ABCDEFGH")].
Proof.
  apply (extract_ignores_trailing_bytes
           (init sample_dfuse) (init retrailed_dfuse) 313).
  - reflexivity.
  - vm_compute; discriminate.
  - vm_compute; reflexivity.
  - vm_compute; discriminate.
  - vm_compute; reflexivity.
  - vm_compute; discriminate.
  - vm_compute; discriminate.
Defined.

(** ** What a result can hold *)

Lemma total_payload_snoc (acc : list (Z * bytes)) (e : Z * bytes) :
  total_payload (acc ++ [e]) = total_payload acc + len (snd e).
Proof.
  rewrite total_payload_app. unfold total_payload. cbn [fold_right]. lia.
Qed.

(** The payloads gathered so far, their 8-byte headers and the 11-byte
    prefix all lie before the offset and inside the buffer. *)
Lemma element_loop_bound (self : DFUParser) n :
  forall off acc off' acc',
    0 <= off ->
    element_loop self n off acc = Ok (off', acc') ->
    total_payload acc + 8 * Z.of_nat (List.length acc) + 11
      <= Z.min off (len (dfu_data self)) ->
    total_payload acc' + 8 * Z.of_nat (List.length acc') + 11
      <= Z.min off' (len (dfu_data self)).
Proof.
  induction n as [|n IH]; intros off acc off' acc' Ho H Hinv.
  - cbn in H. now injection H as <- <-.
  - apply element_loop_S in H as (addr & size & Ea & Es & Hs & H).
    replace (off + 8) with (off + 4 + 4) in Es by lia.
    apply unpack_I_inv in Es as [Hfit _]; [|lia].
    apply IH in H; [assumption|lia|].
    rewrite total_payload_snoc, length_app. cbn [snd List.length].
    pose proof (slice_length (dfu_data self) (off + 8) size
                  ltac:(lia) ltac:(lia)) as Hl.
    unfold len in *. lia.
Qed.

Lemma target_loop_bound (self : DFUParser) n :
  forall off acc off' acc',
    0 <= off ->
    target_loop self n off acc = Ok (off', acc') ->
    total_payload acc + 8 * Z.of_nat (List.length acc) + 11
      <= Z.min off (len (dfu_data self)) ->
    total_payload acc' + 8 * Z.of_nat (List.length acc') + 11
      <= Z.min off' (len (dfu_data self)).
Proof.
  induction n as [|n IH]; intros off acc off' acc' Ho H Hinv.
  - cbn in H. now injection H as <- <-.
  - cbn [target_loop] in H.
    destruct (target_header self off) as [nb|]; [|discriminate].
    cbn [bind] in H.
    destruct (element_loop self _ _ _) as [[o1 a1]|] eqn:Ee; [|discriminate].
    cbn [bind] in H.
    pose proof (element_loop_offset _ _ _ _ _ _ Ee) as M1.
    apply element_loop_bound in Ee; [|lia|lia].
    apply IH in H; [assumption|lia|assumption].
Qed.

(** X3: a result never holds more bytes than the buffer.  On the DfuSe
    path the payloads returned, 8 bytes for each of them and the 11 bytes
    of the prefix fit in the buffer together, also when a payload was
    shortened; on the plain path the one payload is no longer than the
    buffer. *)
Theorem extract_payload_bound (self : DFUParser) (elems : list (Z * bytes)) :
  extract self = Ok elems ->
  total_payload elems <= len (dfu_data self) /\
  (firstn 5 (dfu_data self) = B "DfuSe" ->
   total_payload elems + 8 * Z.of_nat (List.length elems) + 11
     <= len (dfu_data self)).
Proof.
  intros H.
  destruct (list_eq_dec Byte.byte_eq_dec (firstn 5 (dfu_data self)) (B "DfuSe"))
    as [Hsig|Hsig].
  - assert (Hb : total_payload elems + 8 * Z.of_nat (List.length elems) + 11
                 <= len (dfu_data self)).
    { rewrite (extract_dfuse self Hsig) in H.
      unfold extract_dfuse_targets in H.
      destruct (Z.lt_ge_cases (len (dfu_data self)) 27) as [Hs|HL].
      { rewrite (parse_prefix_short self Hs) in H. discriminate. }
      destruct (parse_prefix_dfuse self HL Hsig) as (p & Hp & _).
      rewrite Hp in H. cbn [bind] in H.
      destruct (target_loop self _ _ _) as [[o1 a1]|] eqn:E; [|discriminate].
      cbn [bind] in H. injection H as <-.
      apply target_loop_bound in E;
        [lia|unfold DFU_PREFIX_LENGTH; lia|unfold DFU_PREFIX_LENGTH; cbn; lia]. }
    split; [lia|intros _; exact Hb].
  - split; [|contradiction].
    rewrite (extract_plain self Hsig), extract_raw_binary_firstn in H.
    injection H as <-. unfold total_payload. cbn [fold_right snd].
    unfold len at 1. rewrite length_firstn. unfold len. lia.
Qed.

Lemma extract_payload_bound_witness :
  total_payload [(0x08000000, [xde; xad; xbe; xef] ++ suffix_bytes)]
    <= len truncated_dfuse /\
  (firstn 5 truncated_dfuse = B "DfuSe" ->
   total_payload [(0x08000000, [xde; xad; xbe; xef] ++ suffix_bytes)]
     + 8 * Z.of_nat 1 + 11 <= len truncated_dfuse).
Proof.
  apply (extract_payload_bound (init truncated_dfuse)).
  vm_compute; reflexivity.
Defined.

Lemma int_from_le_bound (s : bytes) :
  int_from_le s < 256 ^ Z.of_nat (List.length s).
Proof.
  unfold int_from_le. induction s as [|x s IH].
  - cbn. lia.
  - cbn [fold_right List.length]. rewrite Nat2Z.inj_succ, Z.pow_succ_r by lia.
    pose proof (byte_val_range x). lia.
Qed.

Lemma unpack_I_range (s : bytes) (v : Z) :
  unpack_I s = Ok v -> 0 <= v < 2 ^ 32.
Proof.
  unfold unpack_I. destruct (Nat.eqb_spec (List.length s) 4) as [E|];
    [|discriminate].
  intros [= <-]. pose proof (int_from_le_bound s) as Hb.
  pose proof (int_from_le_nonneg s). rewrite E in Hb.
  change (256 ^ Z.of_nat 4) with (2 ^ 32) in Hb. lia.
Qed.

Lemma element_loop_addresses (self : DFUParser) n :
  forall off acc off' acc',
    element_loop self n off acc = Ok (off', acc') ->
    addresses_u32 acc -> addresses_u32 acc'.
Proof.
  induction n as [|n IH]; intros off acc off' acc' H Hacc.
  - cbn in H. now injection H as _ <-.
  - apply element_loop_S in H as (addr & size & Ea & _ & _ & H).
    apply IH in H; [assumption|].
    apply Forall_app. split; [assumption|].
    constructor; [|constructor]. cbn [fst]. now apply unpack_I_range in Ea.
Qed.

Lemma target_loop_addresses (self : DFUParser) n :
  forall off acc off' acc',
    target_loop self n off acc = Ok (off', acc') ->
    addresses_u32 acc -> addresses_u32 acc'.
Proof.
  induction n as [|n IH]; intros off acc off' acc' H Hacc.
  - cbn in H. now injection H as _ <-.
  - cbn [target_loop] in H.
    destruct (target_header self off) as [nb|]; [|discriminate].
    cbn [bind] in H.
    destruct (element_loop self _ _ _) as [[o1 a1]|] eqn:Ee; [|discriminate].
    cbn [bind] in H.
    apply element_loop_addresses in Ee; [|assumption].
    now apply IH in H.
Qed.

(** X4: every load address [extract] returns is an unsigned 32-bit
    number: 0 on the plain path, a decoded u32 on the DfuSe path. *)
Theorem extract_addresses_u32 (self : DFUParser) (elems : list (Z * bytes)) :
  extract self = Ok elems -> addresses_u32 elems.
Proof.
  unfold extract, extract_dfuse_targets. intros H.
  destruct (bytes_eqb _ _).
  - destruct (parse_prefix self) as [[p|]|]; cbn [bind] in H;
      try discriminate.
    + destruct (target_loop self _ _ _) as [[o1 a1]|] eqn:E; [|discriminate].
      cbn [bind] in H. injection H as <-.
      apply target_loop_addresses in E; [assumption|constructor].
    + injection H as <-. constructor.
  - injection H as <-. constructor; [cbn; lia|constructor].
Qed.

Lemma extract_addresses_u32_witness :
  addresses_u32
    [(0x08000000, [x01; x02; x03; x04]); (0x08000004, B "ABCDEFGH")].
Proof.
  apply (extract_addresses_u32 (init sample_dfuse)).
  vm_compute; reflexivity.
Defined.

(** ** The prefix on the DfuSe path *)

(** X5: a buffer that opens with "DfuSe" and holds fewer than 27 bytes is
    not extracted: [extract] fails with TooSmall for the prefix, whatever
    the target count says. *)
Theorem extract_dfuse_too_small (self : DFUParser) :
  firstn 5 (dfu_data self) = B "DfuSe" ->
  len (dfu_data self) < 27 ->
  extract self = Err (TooSmall DFU_prefix).
Proof.
  intros Hsig Hs. rewrite (extract_dfuse self Hsig).
  unfold extract_dfuse_targets. now rewrite (parse_prefix_short self Hs).
Qed.

Lemma extract_dfuse_too_small_witness :
  extract (init (B "DfuSe" ++ [x01] ++ pack_I 0 ++ [x00] ++ B "UFD"))
  = Err (TooSmall DFU_prefix).
Proof.
  apply extract_dfuse_too_small.
  - reflexivity.
  - vm_compute; reflexivity.
Defined.

(** X6: [parse_prefix] returns None exactly on the buffers of at least 27
    bytes that do not open with "DfuSe".  On such a buffer
    [extract_dfuse_targets] returns the empty list, but [extract] does not
    call it and returns the raw pair: through [extract] the empty result for
    an absent prefix never shows. *)
Theorem absent_prefix_branch (self : DFUParser) :
  (parse_prefix self = Ok None <->
   27 <= len (dfu_data self) /\ firstn 5 (dfu_data self) <> B "DfuSe") /\
  (parse_prefix self = Ok None ->
   extract_dfuse_targets self = Ok [] /\
   extract self = Ok [(0, extract_raw_binary self)]).
Proof.
  assert (Hiff : parse_prefix self = Ok None <->
            27 <= len (dfu_data self) /\ firstn 5 (dfu_data self) <> B "DfuSe").
  { split.
    - intros H.
      destruct (Z.lt_ge_cases (len (dfu_data self)) 27) as [Hs|HL].
      { rewrite (parse_prefix_short self Hs) in H. discriminate. }
      split; [assumption|]. intros Hsig.
      destruct (parse_prefix_dfuse self HL Hsig) as (p & Hp & _). congruence.
    - intros [HL Hsig]. rewrite (parse_prefix_long self HL).
      apply bytes_eqb_neq in Hsig. now rewrite Hsig. }
  split; [exact Hiff|]. intros H. split.
  - unfold extract_dfuse_targets. now rewrite H.
  - apply extract_plain. now apply Hiff.
Qed.

Lemma absent_prefix_branch_witness :
  extract_dfuse_targets (init plain_dfu) = Ok [] /\
  extract (init plain_dfu) = Ok [(0, extract_raw_binary (init plain_dfu))].
Proof.
  apply (proj2 (absent_prefix_branch (init plain_dfu))).
  vm_compute; reflexivity.
Defined.

(** ** Nothing of a plain file is lost *)

Lemma byte_val_inj (x y : byte) : byte_val x = byte_val y -> x = y.
Proof.
  unfold byte_val. intros H. apply N2Z.inj in H.
  pose proof (Byte.of_to_N x) as Hx. rewrite H, Byte.of_to_N in Hx.
  congruence.
Qed.

Lemma parse_suffix_short (self : DFUParser) :
  len (dfu_data self) < 16 -> parse_suffix self = Err (TooSmall DFU_suffix).
Proof.
  intros H. unfold parse_suffix. change DFU_SUFFIX_LENGTH with 16.
  destruct (Z.ltb_spec (len (dfu_data self)) 16); [reflexivity|lia].
Qed.

Lemma extract_raw_binary_app (self : DFUParser) (pre suf : bytes) :
  dfu_data self = pre ++ suf -> List.length suf = 16%nat ->
  extract_raw_binary self = pre.
Proof.
  intros E Hs. rewrite extract_raw_binary_firstn, E.
  unfold len. rewrite length_app, Hs.
  replace (Z.to_nat (Z.max 0 (Z.of_nat (List.length pre + 16) - 16)))
    with (List.length pre + 0)%nat by lia.
  rewrite firstn_app_2. cbn [firstn]. apply app_nil_r.
Qed.

(** Little-endian fields with the same value have the same bytes. *)
Lemma le16_inj (x0 x1 y0 y1 : byte) :
  byte_val x0 + 256 * byte_val x1 = byte_val y0 + 256 * byte_val y1 ->
  x0 = y0 /\ x1 = y1.
Proof.
  intros H.
  pose proof (byte_val_range x0). pose proof (byte_val_range x1).
  pose proof (byte_val_range y0). pose proof (byte_val_range y1).
  split; apply byte_val_inj; lia.
Qed.

Lemma le32_inj (x0 x1 x2 x3 y0 y1 y2 y3 : byte) :
  byte_val x0 + 256 * byte_val x1 + 65536 * byte_val x2
  + 16777216 * byte_val x3
  = byte_val y0 + 256 * byte_val y1 + 65536 * byte_val y2
    + 16777216 * byte_val y3 ->
  x0 = y0 /\ x1 = y1 /\ x2 = y2 /\ x3 = y3.
Proof.
  intros H.
  pose proof (byte_val_range x0). pose proof (byte_val_range x1).
  pose proof (byte_val_range x2). pose proof (byte_val_range x3).
  pose proof (byte_val_range y0). pose proof (byte_val_range y1).
  pose proof (byte_val_range y2). pose proof (byte_val_range y3).
  repeat split; apply byte_val_inj; lia.
Qed.

(** X7: the payload and the decoded suffix determine a plain DFU file.
    Two buffers on which [parse_suffix] returns the same record and
    [extract_raw_binary] the same payload are the same buffer: the decoding
    loses no byte. *)
Theorem plain_file_determined (s1 s2 : DFUParser) (sfx : Suffix) :
  parse_suffix s1 = Ok sfx ->
  parse_suffix s2 = Ok sfx ->
  extract_raw_binary s1 = extract_raw_binary s2 ->
  dfu_data s1 = dfu_data s2.
Proof.
  intros H1 H2 Hraw.
  assert (L1 : 16 <= len (dfu_data s1)).
  { destruct (Z.lt_ge_cases (len (dfu_data s1)) 16) as [Hs|]; [|assumption].
    rewrite (parse_suffix_short s1 Hs) in H1. discriminate. }
  assert (L2 : 16 <= len (dfu_data s2)).
  { destruct (Z.lt_ge_cases (len (dfu_data s2)) 16) as [Hs|]; [|assumption].
    rewrite (parse_suffix_short s2 Hs) in H2. discriminate. }
  destruct (split_last _ 16 L1) as (pre1 & suf1 & E1 & Hs1).
  destruct (split_last _ 16 L2) as (pre2 & suf2 & E2 & Hs2).
  rewrite (extract_raw_binary_app s1 pre1 suf1 E1 Hs1) in Hraw.
  rewrite (extract_raw_binary_app s2 pre2 suf2 E2 Hs2) in Hraw.
  destruct suf1 as [|a0 [|a1 [|a2 [|a3 [|a4 [|a5 [|a6 [|a7 [|a8 [|a9
    [|a10 [|a11 [|a12 [|a13 [|a14 [|a15 [|? ?]]]]]]]]]]]]]]]]];
    try discriminate Hs1.
  destruct suf2 as [|c0 [|c1 [|c2 [|c3 [|c4 [|c5 [|c6 [|c7 [|c8 [|c9
    [|c10 [|c11 [|c12 [|c13 [|c14 [|c15 [|? ?]]]]]]]]]]]]]]]]];
    try discriminate Hs2.
  rewrite (parse_suffix_app _ _ _ _ _ _ _ _ _ _ _ _ _ _ _ _ _ _ E1) in H1.
  rewrite (parse_suffix_app _ _ _ _ _ _ _ _ _ _ _ _ _ _ _ _ _ _ E2) in H2.
  destruct (bytes_eqb [a8; a9; a10] _); [|discriminate].
  destruct (bytes_eqb [c8; c9; c10] _); [|discriminate].
  rewrite <- H2 in H1. clear H2.
  assert (Hrec : forall A (f : Suffix -> A) x y, Ok x = Ok y -> f x = f y)
    by (intros A f x y [= ->]; reflexivity).
  pose proof (Hrec _ bcdDevice _ _ H1) as Hdev.
  pose proof (Hrec _ idProduct _ _ H1) as Hpro.
  pose proof (Hrec _ idVendor _ _ H1) as Hven.
  pose proof (Hrec _ bcdDFU _ _ H1) as Hdfu.
  pose proof (Hrec _ ucDfuSignature _ _ H1) as Hsig.
  pose proof (Hrec _ bLength _ _ H1) as Hlen.
  pose proof (Hrec _ dwCRC _ _ H1) as Hcrc.
  cbn [bcdDevice idProduct idVendor bcdDFU ucDfuSignature bLength dwCRC] in *.
  clear H1 Hrec. injection Hsig as -> -> ->.
  apply le16_inj in Hdev as [-> ->]. apply le16_inj in Hpro as [-> ->].
  apply le16_inj in Hven as [-> ->]. apply le16_inj in Hdfu as [-> ->].
  apply byte_val_inj in Hlen as ->.
  apply le32_inj in Hcrc as (-> & -> & -> & ->).
  rewrite E1, E2, Hraw. reflexivity.
Qed.

Lemma plain_file_determined_witness :
  dfu_data (init plain_dfu)
  = dfu_data {| dfu_data := B "firmware image" ++ suffix_bytes;
                targets := [(0, B "firmware image")] |}.
Proof.
  apply (plain_file_determined (init plain_dfu)
           {| dfu_data := B "firmware image" ++ suffix_bytes;
              targets := [(0, B "firmware image")] |}
           {| bcdDevice := 0xffff; idProduct := 0xdf11; idVendor := 0x0483;
              bcdDFU := 0x011a; ucDfuSignature := B "UFD"; bLength := 16;
              dwCRC := 0x78563412 |}).
  - vm_compute; reflexivity.
  - vm_compute; reflexivity.
  - reflexivity.
Defined.

(** * The functions around the parser *)

(** ** The hex preview *)

Lemma slice_to_length (data : bytes) (k : Z) :
  0 <= k -> List.length (slice_to data k) = Z.to_nat (Z.min k (len data)).
Proof.
  intros Hk. rewrite slice_to_firstn by lia.
  rewrite length_firstn. unfold len. lia.
Qed.

Lemma printable_range (x : byte) :
  32 <= Z.of_N (N_of_ascii (printable x)) < 127.
Proof. destruct x; vm_compute; split; easy. Qed.

Lemma concat_hex_length (p : bytes) :
  Z.of_nat (String.length (String.concat " " (map format_02X p)))
  = Z.max 0 (3 * len p - 1).
Proof.
  unfold len. induction p as [|x [|y p] IH].
  - reflexivity.
  - reflexivity.
  - change (String.concat " " (map format_02X (x :: y :: p)))
      with (String (hex_digit (byte_val x / 16))
              (String (hex_digit (byte_val x mod 16))
                 (String " " (String.concat " " (map format_02X (y :: p)))))).
    cbn [String.length]. cbn [List.length] in *. lia.
Qed.

(** X8: the two lines of the preview show the first [max_bytes] bytes of
    the data, or all of them when there are fewer: the text line has one
    character per byte, each of them printable ASCII (code 32 to 126), and
    the hex line has two digits per byte and one space between bytes. *)
Theorem print_hex_preview_shape (data : bytes) (max_bytes : Z) :
  0 <= max_bytes ->
  let n := Z.min (len data) max_bytes in
  let '(hex_str, ascii_str) := print_hex_preview data max_bytes in
  Z.of_nat (String.length hex_str) = Z.max 0 (3 * n - 1) /\
  List.length (list_ascii_of_string ascii_str) = Z.to_nat n /\
  Forall (fun c => 32 <= Z.of_N (N_of_ascii c) < 127)
    (list_ascii_of_string ascii_str).
Proof.
  intros Hm n. unfold print_hex_preview. fold n.
  pose proof (len_nonneg data) as Hl.
  assert (Hn : len (slice_to data n) = n).
  { unfold len at 1. rewrite slice_to_length by (unfold n; lia).
    unfold n. lia. }
  split; [|split].
  - now rewrite concat_hex_length, Hn.
  - rewrite list_ascii_of_string_of_list_ascii, length_map.
    unfold len in Hn. lia.
  - rewrite list_ascii_of_string_of_list_ascii.
    apply Forall_map, Forall_forall. intros x _. apply printable_range.
Qed.

Lemma print_hex_preview_shape_witness :
  Z.of_nat (String.length "48 69 7E 00 7F FF") = Z.max 0 (3 * 6 - 1) /\
  List.length (list_ascii_of_string "Hi~...") = Z.to_nat 6 /\
  Forall (fun c => 32 <= Z.of_N (N_of_ascii c) < 127)
    (list_ascii_of_string "Hi~...").
Proof.
  exact (print_hex_preview_shape (B "Hi~" ++ [x00; x7f; xff] ++ B "rest") 6
           ltac:(lia)).
Defined.

Lemma hex_digits_NoDup : NoDup (list_ascii_of_string "0123456789ABCDEF").
Proof.
  cbn. repeat (constructor; [cbn; intuition discriminate|]). constructor.
Qed.

Lemma hex_digit_inj (m n : Z) :
  0 <= m < 16 -> 0 <= n < 16 -> hex_digit m = hex_digit n -> m = n.
Proof.
  intros Hm Hn H. unfold hex_digit in H.
  apply (proj1 (NoDup_nth _ _) hex_digits_NoDup) in H; [lia|cbn; lia..].
Qed.

Lemma format_02X_inj (x y : byte) : format_02X x = format_02X y -> x = y.
Proof.
  unfold format_02X. intros H. injection H as Hhi Hlo.
  pose proof (byte_val_range x). pose proof (byte_val_range y).
  apply hex_digit_inj in Hhi;
    [|split; [apply Z.div_pos; lia|apply Z.div_lt_upper_bound; lia]..].
  apply hex_digit_inj in Hlo; [|apply Z.mod_pos_bound; lia..].
  apply byte_val_inj.
  rewrite (Z.div_mod (byte_val x) 16), (Z.div_mod (byte_val y) 16) by lia.
  now rewrite Hhi, Hlo.
Qed.

Lemma concat_hex_inj (p1 : bytes) :
  forall p2 : bytes,
    String.concat " " (map format_02X p1)
    = String.concat " " (map format_02X p2) ->
    p1 = p2.
Proof.
  induction p1 as [|x p1 IH]; intros [|y p2] H.
  - reflexivity.
  - destruct p2; discriminate H.
  - destruct p1; discriminate H.
  - destruct p1 as [|x' p1], p2 as [|y' p2].
    + cbn in H. apply format_02X_inj in H. now subst.
    + discriminate H.
    + discriminate H.
    + change (String.concat " " (map format_02X (x :: x' :: p1)))
        with (String (hex_digit (byte_val x / 16))
                (String (hex_digit (byte_val x mod 16))
                   (String " " (String.concat " " (map format_02X (x' :: p1))))))
        in H.
      change (String.concat " " (map format_02X (y :: y' :: p2)))
        with (String (hex_digit (byte_val y / 16))
                (String (hex_digit (byte_val y mod 16))
                   (String " " (String.concat " " (map format_02X (y' :: p2))))))
        in H.
      injection H as Hhi Hlo Hrest.
      assert (Hr : x' :: p1 = y' :: p2) by (apply IH; exact Hrest).
      rewrite Hr. f_equal.
      apply format_02X_inj. unfold format_02X. now rewrite Hhi, Hlo.
Qed.

(** X9: the hex line tells the previewed bytes: two previews with the same
    hex line show the same bytes. *)
Theorem print_hex_preview_faithful (d1 d2 : bytes) (m1 m2 : Z) :
  fst (print_hex_preview d1 m1) = fst (print_hex_preview d2 m2) ->
  slice_to d1 (Z.min (len d1) m1) = slice_to d2 (Z.min (len d2) m2).
Proof. unfold print_hex_preview. cbn [fst]. apply concat_hex_inj. Qed.

Lemma print_hex_preview_faithful_witness :
  slice_to (B "DfuSe file") (Z.min (len (B "DfuSe file")) 5)
  = slice_to (B "DfuSe") (Z.min (len (B "DfuSe")) 32).
Proof.
  apply (print_hex_preview_faithful (B "DfuSe file") (B "DfuSe") 5 32).
  reflexivity.
Defined.

(** ** File names *)

Lemma append_inv_head (p s1 s2 : string) :
  (p ++ s1)%string = (p ++ s2)%string -> s1 = s2.
Proof.
  induction p as [|c p IH]; cbn; intros H; [assumption|].
  injection H as H. now apply IH.
Qed.

Lemma string_length_append (front back : string) :
  (String.length front + String.length back)%nat
  = String.length (front ++ back).
Proof. induction front as [|c front IH]; cbn; [reflexivity|now rewrite IH]. Qed.

Lemma append_inv_tail (t : string) (s1 : string) :
  forall s2, (s1 ++ t)%string = (s2 ++ t)%string -> s1 = s2.
Proof.
  induction s1 as [|c s1 IH]; intros [|d s2] H.
  - reflexivity.
  - apply (f_equal String.length) in H. cbn in H.
    rewrite <- string_length_append in H. lia.
  - apply (f_equal String.length) in H. cbn in H.
    rewrite <- string_length_append in H. lia.
  - cbn in H. injection H as -> H. f_equal. now apply IH.
Qed.

Lemma str_inj (i j : nat) : str i = str j -> i = j.
Proof.
  unfold str. intros H.
  apply DecimalNat.Unsigned.to_uint_inj.
  assert (E : Some (Nat.to_uint i) = Some (Nat.to_uint j))
    by (rewrite <- !NilEmpty.usu; now rewrite H).
  now injection E.
Qed.

(** The names of the numbered files are all different. *)
Lemma numbered_name_inj (p : string) (i j : nat) :
  (p ++ "_" ++ str i ++ ".bin")%string = (p ++ "_" ++ str j ++ ".bin")%string ->
  i = j.
Proof.
  intros H. apply append_inv_head in H. cbn in H. injection H as H.
  apply append_inv_tail in H. now apply str_inj.
Qed.

Lemma NoDup_numbered_names (p : string) (i k : nat) :
  NoDup (map (fun i => (p ++ "_" ++ str i ++ ".bin")%string) (seq i k)).
Proof.
  apply Finite.Injective_map_NoDup; [|apply seq_NoDup].
  intros a c. apply numbered_name_inj.
Qed.

(** ** Writing the files *)

Lemma map_combine {A C} (l : list A) :
  forall l' : list C,
    List.length l = List.length l' ->
    map fst (combine l l') = l /\ map snd (combine l l') = l'.
Proof.
  induction l as [|x l IH]; intros [|y l'] H; try discriminate H.
  - now split.
  - cbn in H. injection H as H. destruct (IH l' H) as [E1 E2].
    cbn. now rewrite E1, E2.
Qed.

(** The loop writes the payloads of the first [k] targets, in order, under
    the numbered names, and comes to its end only with all of them. *)
Lemma save_each_written (can_write : string -> bool) (p : string)
    (targets : list (Z * bytes)) :
  forall i acc ok written,
    save_each can_write p i targets acc = (ok, written) ->
    exists k,
      (k <= List.length targets)%nat /\
      written =
        acc ++ combine (map (fun i => (p ++ "_" ++ str i ++ ".bin")%string)
                          (seq i k))
                 (firstn k (map snd targets)) /\
      (ok = true -> k = List.length targets).
Proof.
  induction targets as [|[addr data] rest IH]; intros i acc ok written H.
  - cbn in H. injection H as <- <-. exists 0%nat. cbn.
    rewrite app_nil_r. repeat split; lia.
  - cbn [save_each] in H.
    destruct (can_write _).
    + apply IH in H as (k & Hk & -> & Hok). exists (S k).
      cbn [List.length seq map firstn combine snd].
      rewrite <- app_assoc. cbn [app].
      repeat split; [lia|]. intros E. now rewrite (Hok E).
    + injection H as <- <-. exists 0%nat. cbn.
      rewrite app_nil_r. repeat split; [lia|discriminate].
Qed.

(** X10: whatever the file system accepts, the files [save_binaries]
    writes are the payloads of the first targets, in their order, each under
    a name of its own (no file is written twice); and when it returns
    normally every payload was written. *)
Theorem save_binaries_written (can_write : string -> bool)
    (targets : list (Z * bytes)) (output_prefix : string)
    (ok : bool) (written : list (string * bytes)) :
  save_binaries can_write targets output_prefix = (ok, written) ->
  NoDup (map fst written) /\
  map snd written = firstn (List.length written) (map snd targets) /\
  (ok = true -> map snd written = map snd targets).
Proof.
  intros H.
  assert (Hloop : forall ts,
            save_each can_write output_prefix 0 ts [] = (ok, written) ->
            NoDup (map fst written) /\
            map snd written = firstn (List.length written) (map snd ts) /\
            (ok = true -> map snd written = map snd ts)).
  { intros ts E. apply save_each_written in E as (k & Hk & -> & Hok).
    cbn [app].
    assert (Hlen : List.length
                     (map (fun i => (output_prefix ++ "_" ++ str i ++ ".bin")%string)
                        (seq 0 k))
                   = List.length (firstn k (map snd ts))).
    { rewrite length_map, length_seq, length_firstn, length_map. lia. }
    destruct (map_combine _ _ Hlen) as [-> ->].
    rewrite length_combine, <- Hlen, Nat.min_id, length_map, length_seq.
    repeat split.
    - apply NoDup_numbered_names.
    - intros E. rewrite (Hok E), <- (length_map snd ts). apply firstn_all. }
  destruct targets as [|[addr data] [|t rest]].
  - now apply Hloop.
  - cbn in H. destruct (can_write _); injection H as <- <-; cbn.
    + repeat split. constructor; [intros []|constructor].
    + repeat split; [constructor|discriminate].
  - now apply Hloop.
Qed.

Lemma save_binaries_written_witness :
  NoDup (map fst [("fw_0.bin"%string, [x01]); ("fw_1.bin"%string, [x02])]) /\
  map snd [("fw_0.bin"%string, [x01]); ("fw_1.bin"%string, [x02])]
  = firstn 2 (map snd [(0x08000000, [x01]); (0x08004000, [x02]);
                        (0x08008000, [x03])]) /\
  (false = true ->
   map snd [("fw_0.bin"%string, [x01]); ("fw_1.bin"%string, [x02])]
   = map snd [(0x08000000, [x01]); (0x08004000, [x02]); (0x08008000, [x03])]).
Proof.
  apply (save_binaries_written
           (fun name => negb (String.eqb name "fw_2.bin"))
           [(0x08000000, [x01]); (0x08004000, [x02]); (0x08008000, [x03])]
           "fw" false).
  reflexivity.
Defined.

(** ** The command *)

(** Past the argument parsing, the value 0 of [main] means that the input
    was read, that [extract] returned a list, and that every payload of that
    list was written, in order, each to a file of its own. *)
Lemma main_returns_0 (read_file : string -> option bytes)
    (can_write : string -> bool) (args : Args)
    (written : list (string * bytes)) :
  main read_file can_write args = (0, written) ->
  exists data elems,
    read_file (input args) = Some data /\
    extract (init data) = Ok elems /\
    map snd written = map snd elems /\
    NoDup (map fst written).
Proof.
  unfold main. destruct (read_file (input args)) as [data|]; [|discriminate].
  intros H. exists data.
  destruct (if info args then _ else _) as [[]|]; cbn [bind] in H;
    [|discriminate].
  destruct (extract (init data)) as [elems|]; [|discriminate].
  exists elems.
  destruct (save_binaries can_write elems _) as [ok w] eqn:Es.
  destruct ok; [|discriminate]. injection H as <-.
  apply save_binaries_written in Es as (Hnd & _ & Hall).
  repeat split; [now apply Hall|assumption].
Qed.

(** X11: exit status 0 of the command means one of two things: the
    argument parser ended the run for [-h] or [--help], and then no input was
    read and no file written; or the arguments were parsed, the input was
    read, [extract] returned a list, and every payload of that list was
    written, in order, each to a file of its own. *)
Theorem run_success (parsed : parse_args_outcome)
    (read_file : string -> option bytes) (can_write : string -> bool)
    (written : list (string * bytes)) :
  run parsed read_file can_write = (0, written) ->
  (parsed = HelpExit /\ written = []) \/
  (exists args data elems,
     parsed = Namespace args /\
     read_file (input args) = Some data /\
     extract (init data) = Ok elems /\
     map snd written = map snd elems /\
     NoDup (map fst written)).
Proof.
  destruct parsed as [args| |]; cbn [run]; intros H.
  - right. apply main_returns_0 in H as (data & elems & H).
    now exists args, data, elems.
  - left. injection H as <-. now split.
  - discriminate H.
Qed.

Lemma run_success_witness :
  ((Namespace {| input := "fw.dfu"; output := Some "out"%string;
                 info := true |} = HelpExit /\
    [("out_0.bin"%string, [x01; x02; x03; x04]);
     ("out_1.bin"%string, B "ABCDEFGH")] = []) \/
   (exists args data elems,
      Namespace {| input := "fw.dfu"; output := Some "out"%string;
                   info := true |} = Namespace args /\
      (fun _ : string => Some sample_dfuse) (input args) = Some data /\
      extract (init data) = Ok elems /\
      map snd [("out_0.bin"%string, [x01; x02; x03; x04]);
               ("out_1.bin"%string, B "ABCDEFGH")] = map snd elems /\
      NoDup (map fst [("out_0.bin"%string, [x01; x02; x03; x04]);
                      ("out_1.bin"%string, B "ABCDEFGH")]))) /\
  ((HelpExit = HelpExit /\ @nil (string * bytes) = []) \/
   (exists args data elems,
      HelpExit = Namespace args /\
      (fun _ : string => @None bytes) (input args) = Some data /\
      extract (init data) = Ok elems /\
      map snd (@nil (string * bytes)) = map snd elems /\
      NoDup (map fst (@nil (string * bytes))))).
Proof.
  split.
  - apply (run_success
             (Namespace {| input := "fw.dfu"; output := Some "out"%string;
                           info := true |})
             (fun _ => Some sample_dfuse) (fun _ => true)).
    vm_compute; reflexivity.
  - apply (run_success HelpExit (fun _ => None) (fun _ => true)).
    reflexivity.
Defined.

(** X12: nothing is written unless the whole buffer was parsed.  When the
    input cannot be read, or [extract] fails on it (also after some elements
    were walked), [main] returns 1 and writes no file. *)
Theorem main_failure_writes_nothing (read_file : string -> option bytes)
    (can_write : string -> bool) (args : Args) :
  (read_file (input args) = None ->
   main read_file can_write args = (1, [])) /\
  (forall data e,
     read_file (input args) = Some data ->
     extract (init data) = Err e ->
     main read_file can_write args = (1, [])).
Proof.
  unfold main. split.
  - now intros ->.
  - intros data e -> He. rewrite He.
    destruct (if info args then _ else _) as [[]|]; reflexivity.
Qed.

Lemma main_failure_writes_nothing_witness :
  main (fun _ => None) (fun _ => true)
    {| input := "gone.dfu"; output := None; info := false |} = (1, []) /\
  main (fun _ => Some bad_signature_dfuse) (fun _ => true)
    {| input := "fw.dfu"; output := None; info := false |} = (1, []).
Proof.
  split.
  - apply (proj1 (main_failure_writes_nothing (fun _ => None) (fun _ => true)
                    {| input := "gone.dfu"; output := None; info := false |})).
    reflexivity.
  - apply (proj2 (main_failure_writes_nothing
                    (fun _ => Some bad_signature_dfuse) (fun _ => true)
                    {| input := "fw.dfu"; output := None; info := false |})
             bad_signature_dfuse (InvalidTargetSignature 297)).
    + reflexivity.
    + vm_compute; reflexivity.
Defined.

(** X13: with [--info] every input shorter than 27 bytes is refused, a
    plain DFU file with a good suffix included: [parse_suffix] or, after it,
    [parse_prefix] fails, [main] returns 1 and writes no file. *)
Theorem main_info_short (read_file : string -> option bytes)
    (can_write : string -> bool) (args : Args) (data : bytes) :
  read_file (input args) = Some data ->
  info args = true ->
  len data < 27 ->
  main read_file can_write args = (1, []).
Proof.
  intros Hr Hi Hs. unfold main. rewrite Hr, Hi.
  rewrite (parse_prefix_short (init data) Hs).
  destruct (parse_suffix (init data)); reflexivity.
Qed.

Lemma main_info_short_witness :
  main (fun _ => Some (B "image" ++ suffix_bytes)) (fun _ => true)
    {| input := "fw.dfu"; output := None; info := true |} = (1, []).
Proof.
  apply (main_info_short _ _ _ (B "image" ++ suffix_bytes)).
  - reflexivity.
  - reflexivity.
  - vm_compute; reflexivity.
Defined.





(** ** The default output name *)

Lemma rsplit_dot_Some (s : string) :
  forall before after,
    rsplit_dot s = Some (before, after) ->
    s = (before ++ "." ++ after)%string /\
    ~ In "."%char (list_ascii_of_string after).
Proof.
  induction s as [|c s IH]; intros before after H; [discriminate|].
  cbn [rsplit_dot] in H.
  destruct (rsplit_dot s) as [[b' a']|] eqn:E.
  - injection H as <- <-. destruct (IH b' a' eq_refl) as [-> Hno].
    now split.
  - destruct (Ascii.eqb_spec c ".") as [->|]; [|discriminate].
    injection H as <- <-. split; [reflexivity|].
    clear IH. revert E. induction s as [|d s IHs]; intros E [].
    + subst d. cbn [rsplit_dot] in E.
      destruct (rsplit_dot s) as [[? ?]|]; [discriminate|].
      rewrite Ascii.eqb_refl in E. discriminate.
    + cbn [rsplit_dot] in E.
      destruct (rsplit_dot s) as [[? ?]|]; [discriminate|].
      now apply IHs.
Qed.

Lemma rsplit_dot_None (s : string) :
  rsplit_dot s = None -> ~ In "."%char (list_ascii_of_string s).
Proof.
  induction s as [|c s IH]; intros E; [intros []|].
  cbn [rsplit_dot] in E.
  destruct (rsplit_dot s) as [[? ?]|]; [discriminate|].
  destruct (Ascii.eqb_spec c ".") as [|Hc]; [discriminate|].
  intros [H|H]; [congruence|now apply IH].
Qed.

(** X16: the default output prefix, [input.rsplit(".", 1)[0]], is the input
    name cut at its last dot: either the name is this prefix, a dot and an
    extension without dot, or it has no dot and is its own prefix. *)
Theorem rsplit_dot_0_spec (s : string) :
  (exists ext, s = (rsplit_dot_0 s ++ "." ++ ext)%string /\
               ~ In "."%char (list_ascii_of_string ext)) \/
  (rsplit_dot_0 s = s /\ ~ In "."%char (list_ascii_of_string s)).
Proof.
  unfold rsplit_dot_0. destruct (rsplit_dot s) as [[before after]|] eqn:E.
  - left. exists after. now apply rsplit_dot_Some.
  - right. split; [reflexivity|now apply rsplit_dot_None].
Qed.
